(** * Celestron SCT / EdgeHD focuser driver

    A shallow embedding of [libindi/drivers/focuser/celestron.cpp] and the
    properties of its move controller: position and limit reads, absolute
    and relative moves, abort, and the polling callback.

    Conventions of the embedding.
    - C++ integers are [Z]; conversions between widths are written out
      ([wrap_int32], [wrap_uint32], [double_to_int32]).
    - [buffer] (a vector of [uint8_t]) is [list byte].
    - The [double] members of an [INumber] only ever receive values of
      [int] variables or integer literals in this driver, so they are
      carried as [Z].
    - The AUX communicator ([sendCommand], [commandBlind]) is declared
      outside this translation unit; it is an interface ([Communicator])
      over an arbitrary link state.
    - A read outside a reply buffer, or a [double] to [int32_t] conversion
      of an unrepresentable value, has no defined result in C++; the
      driver monad [M] returns [None] there. *)

From Stdlib Require Import ZArith List Bool Lia String.
From Stdlib Require Import Strings.Byte.
Import ListNotations.
Local Open Scope string_scope.
Local Open Scope list_scope.
Local Open Scope Z_scope.

(** ** Machine integers and bytes *)

Definition wrap_uint32 (z : Z) : Z := z mod 2 ^ 32.

Definition wrap_int32 (z : Z) : Z := (z + 2 ^ 31) mod 2 ^ 32 - 2 ^ 31.

Definition in_int32 (z : Z) : bool := (- 2 ^ 31 <=? z) && (z <=? 2 ^ 31 - 1).

(** [static_cast<int32_t>(d)] for a [double] holding the integer [d]. *)
Definition double_to_int32 (d : Z) : option Z :=
  if in_int32 d then Some d else None.

Definition buffer := list byte.

(** Integral promotion of a [uint8_t] element. *)
Definition byte_val (b : byte) : Z := Z.of_N (Byte.to_N b).

(** [(unsigned char) z]. *)
Definition uchar (z : Z) : byte :=
  match Byte.of_N (Z.to_N (z mod 256)) with
  | Some b => b
  | None => x00
  end.

(** ** INDI property records *)

Inductive IPState := IPS_IDLE | IPS_OK | IPS_BUSY | IPS_ALERT.

Definition IPState_eqb (a b : IPState) : bool :=
  match a, b with
  | IPS_IDLE, IPS_IDLE | IPS_OK, IPS_OK
  | IPS_BUSY, IPS_BUSY | IPS_ALERT, IPS_ALERT => true
  | _, _ => false
  end.

Inductive FocusDirection := FOCUS_INWARD | FOCUS_OUTWARD.

Record INumber := { value : Z; min : Z; max : Z }.

Record INumberVectorProperty := { np : INumber; s : IPState }.

Definition with_value (v : Z) (n : INumber) : INumber :=
  {| value := v; min := min n; max := max n |}.
Definition with_min (v : Z) (n : INumber) : INumber :=
  {| value := value n; min := v; max := max n |}.
Definition with_max (v : Z) (n : INumber) : INumber :=
  {| value := value n; min := min n; max := v |}.
Definition on_np (f : INumber -> INumber) (p : INumberVectorProperty) :=
  {| np := f (np p); s := s p |}.
Definition with_s (st : IPState) (p : INumberVectorProperty) :=
  {| np := np p; s := st |}.

(** The members of the driver object that the controller reads or
    writes (an [INumber] is kept to its value and its bounds; the speed
    property, which no operation below touches, is left out). *)
Record CelestronSCT := {
  isConnected   : bool;
  FocusAbsPosNP : INumberVectorProperty;
  FocusRelPosNP : INumberVectorProperty;
  FocusMaxPosNP : INumberVectorProperty;
  FocusMinPosNP : INumberVectorProperty;
  BacklashNP    : INumberVectorProperty
}.

Definition FocusAbsPosN (d : CelestronSCT) : INumber := np (FocusAbsPosNP d).
Definition FocusRelPosN (d : CelestronSCT) : INumber := np (FocusRelPosNP d).
Definition FocusMaxPosN (d : CelestronSCT) : INumber := np (FocusMaxPosNP d).
Definition FocusMinPosN (d : CelestronSCT) : INumber := np (FocusMinPosNP d).
Definition BacklashN (d : CelestronSCT) : INumber := np (BacklashNP d).

Definition upd_FocusAbsPosNP (f : INumberVectorProperty -> INumberVectorProperty)
    (d : CelestronSCT) : CelestronSCT :=
  {| isConnected := isConnected d;
     FocusAbsPosNP := f (FocusAbsPosNP d);
     FocusRelPosNP := FocusRelPosNP d;
     FocusMaxPosNP := FocusMaxPosNP d;
     FocusMinPosNP := FocusMinPosNP d;
     BacklashNP := BacklashNP d |}.

Definition upd_FocusRelPosNP (f : INumberVectorProperty -> INumberVectorProperty)
    (d : CelestronSCT) : CelestronSCT :=
  {| isConnected := isConnected d;
     FocusAbsPosNP := FocusAbsPosNP d;
     FocusRelPosNP := f (FocusRelPosNP d);
     FocusMaxPosNP := FocusMaxPosNP d;
     FocusMinPosNP := FocusMinPosNP d;
     BacklashNP := BacklashNP d |}.

Definition upd_FocusMaxPosNP (f : INumberVectorProperty -> INumberVectorProperty)
    (d : CelestronSCT) : CelestronSCT :=
  {| isConnected := isConnected d;
     FocusAbsPosNP := FocusAbsPosNP d;
     FocusRelPosNP := FocusRelPosNP d;
     FocusMaxPosNP := f (FocusMaxPosNP d);
     FocusMinPosNP := FocusMinPosNP d;
     BacklashNP := BacklashNP d |}.

Definition upd_FocusMinPosNP (f : INumberVectorProperty -> INumberVectorProperty)
    (d : CelestronSCT) : CelestronSCT :=
  {| isConnected := isConnected d;
     FocusAbsPosNP := FocusAbsPosNP d;
     FocusRelPosNP := FocusRelPosNP d;
     FocusMaxPosNP := FocusMaxPosNP d;
     FocusMinPosNP := f (FocusMinPosNP d);
     BacklashNP := BacklashNP d |}.

Definition upd_BacklashNP (f : INumberVectorProperty -> INumberVectorProperty)
    (d : CelestronSCT) : CelestronSCT :=
  {| isConnected := isConnected d;
     FocusAbsPosNP := FocusAbsPosNP d;
     FocusRelPosNP := FocusRelPosNP d;
     FocusMaxPosNP := FocusMaxPosNP d;
     FocusMinPosNP := FocusMinPosNP d;
     BacklashNP := f (BacklashNP d) |}.

(** [CelestronSCT::initProperties]: the assignments the driver makes on
    top of whatever [INDI::Focuser::initProperties] left in [base]. *)
Definition initProperties (base : CelestronSCT) : CelestronSCT :=
  let d := upd_BacklashNP
             (fun _ => {| np := {| value := 0; min := -500; max := 500 |};
                          s := IPS_IDLE |}) base in
  let d := upd_FocusMinPosNP
             (fun _ => {| np := {| value := 0; min := 0; max := 40000 |};
                          s := IPS_IDLE |}) d in
  let d := upd_FocusRelPosNP
             (on_np (fun _ => {| value := 0; min := 0; max := 30000 |})) d in
  let d := upd_FocusAbsPosNP
             (on_np (fun _ => {| value := 0; min := 0; max := 60000 |})) d in
  upd_FocusMaxPosNP
    (on_np (fun _ => {| value := 60000; min := 1000; max := 60000 |})) d.

(** ** The AUX command channel *)

Inductive AUXtargets := APP | FOCUSER.

Inductive AUXCommands :=
| GET_VER | MC_GET_POSITION | MC_SLEW_DONE | FOC_GET_HS_POSITIONS
| MC_GOTO_FAST | MC_MOVE_POS.

(** [sendCommand] answers [None] when the C++ call returns [false], and
    the reply buffer otherwise; [commandBlind] answers the C++ result. *)
Class Communicator (Dev : Type) := {
  sendCommand  : Dev -> AUXtargets -> AUXCommands -> Dev * option buffer;
  commandBlind : Dev -> AUXtargets -> AUXCommands -> buffer -> Dev * bool
}.

(** What went over the channel, in order. *)
Inductive Request :=
| Query (dst : AUXtargets) (cmd : AUXCommands)
| Blind (dst : AUXtargets) (cmd : AUXCommands) (data : buffer).

(** What the driver told the host: property publications, log lines and
    the re-arming of the poll timer. *)
Inductive PropertyId :=
| FOCUS_ABS_POS | FOCUS_REL_POS | FOCUS_MAX | FOCUS_MIN | FOCUS_BACKLASH.

Inductive Event :=
| IDSetNumber (p : PropertyId)
| IUUpdateMinMax (p : PropertyId)
| LOG_INFO (fmt : string) (args : list Z)
| LOG_DEBUG (fmt : string) (args : list Z)
| SetTimer.

Section Driver.

Context {Dev : Type} {comm : Communicator Dev}.

Record World := {
  link : Dev;
  wire : list Request;
  host : list Event;
  self : CelestronSCT
}.

(** *** State-and-failure monad of the driver *)

Definition M (A : Type) : Type := World -> option (A * World).

Definition ret {A} (a : A) : M A := fun w => Some (a, w).

Definition bind {A B} (m : M A) (k : A -> M B) : M B :=
  fun w => match m w with
           | Some (a, w') => k a w'
           | None => None
           end.

Definition undefined {A} : M A := fun _ => None.

Definition get : M CelestronSCT := fun w => Some (self w, w).

Definition modify (f : CelestronSCT -> CelestronSCT) : M unit :=
  fun w => Some (tt, {| link := link w; wire := wire w; host := host w;
                        self := f (self w) |}).

Definition emit (e : Event) : M unit :=
  fun w => Some (tt, {| link := link w; wire := wire w;
                        host := host w ++ [e]; self := self w |}).

Definition lift {A} (o : option A) : M A :=
  match o with Some a => ret a | None => undefined end.

(** [communicator.sendCommand(PortFD, dst, cmd, reply)] *)
Definition send (dst : AUXtargets) (cmd : AUXCommands) : M (option buffer) :=
  fun w => let (l, r) := sendCommand (link w) dst cmd in
           Some (r, {| link := l; wire := wire w ++ [Query dst cmd];
                       host := host w; self := self w |}).

(** [communicator.commandBlind(PortFD, dst, cmd, data)] *)
Definition blind (dst : AUXtargets) (cmd : AUXCommands) (data : buffer)
  : M bool :=
  fun w => let (l, ok) := commandBlind (link w) dst cmd data in
           Some (ok, {| link := l; wire := wire w ++ [Blind dst cmd data];
                        host := host w; self := self w |}).

(** [reply[i]] *)
Definition at_ (reply : buffer) (i : nat) : M Z :=
  lift (option_map byte_val (nth_error reply i)).

End Driver.

Arguments World Dev : clear implicits.
Arguments M Dev A : clear implicits.

Declare Scope drv_scope.
Delimit Scope drv_scope with drv.
Notation "x <- m ;; k" := (bind m (fun x => k))
  (at level 61, m at next level, right associativity) : drv_scope.
Notation "m ;; k" := (bind m (fun _ => k))
  (at level 61, right associativity) : drv_scope.
Local Open Scope drv_scope.

Section Operations.

Context {Dev : Type} {comm : Communicator Dev}.

(** [CelestronSCT::Ack] *)
Definition Ack : M Dev bool :=
  r <- send FOCUSER GET_VER ;;
  match r with
  | None => ret false
  | Some reply =>
      (if Nat.eqb (List.length reply) 4
       then
         a <- at_ reply 0 ;; b <- at_ reply 1 ;;
         c <- at_ reply 2 ;; d <- at_ reply 3 ;;
         emit (LOG_INFO "Firmware Version %i.%i.%i" [a; b; Z.shiftl c 8 + d])
       else
         a <- at_ reply 0 ;; b <- at_ reply 1 ;;
         emit (LOG_INFO "Firmware Version %i.%i" [a; b])) ;;
      ret true
  end.

(** [CelestronSCT::Handshake] *)
Definition Handshake : M Dev bool :=
  ok <- Ack ;;
  if ok
  then
    emit (LOG_INFO
      "Celestron SCT Focuser is online. Getting focus parameters..." []) ;;
    ret true
  else
    emit (LOG_INFO
      "Error retreiving data from Celestron SCT, please ensure Celestron SCT controller is powered and the port is correct." []) ;;
    ret false.

(** [CelestronSCT::readPosition] *)
Definition readPosition : M Dev bool :=
  r <- send FOCUSER MC_GET_POSITION ;;
  match r with
  | None => ret false
  | Some reply =>
      b0 <- at_ reply 0 ;; b1 <- at_ reply 1 ;; b2 <- at_ reply 2 ;;
      let position := Z.shiftl b0 16 + Z.shiftl b1 8 + b2 in
      emit (LOG_DEBUG "readPosition %i" [position]) ;;
      modify (upd_FocusAbsPosNP (on_np (with_value position))) ;;
      modify (upd_FocusAbsPosNP (with_s IPS_OK)) ;;
      ret true
  end.

(** [CelestronSCT::isMoving] *)
Definition isMoving : M Dev bool :=
  r <- send FOCUSER MC_SLEW_DONE ;;
  match r with
  | None => ret false
  | Some reply =>
      b0 <- at_ reply 0 ;;
      ret (negb (b0 =? 255))
  end.

(** [CelestronSCT::readLimits].  The shift of the leading byte by 24 can
    leave the range of [int]; the value is then the two's complement one
    ([wrap_int32]), as every supported compiler gives and as the language
    defines from C++20 on.  The sums that follow stay in range. *)
Definition readLimits : M Dev bool :=
  r <- send FOCUSER FOC_GET_HS_POSITIONS ;;
  match r with
  | None => ret false
  | Some reply =>
      r0 <- at_ reply 0 ;; r1 <- at_ reply 1 ;;
      r2 <- at_ reply 2 ;; r3 <- at_ reply 3 ;;
      let lo := wrap_int32 (Z.shiftl r0 24) + Z.shiftl r1 16
                + Z.shiftl r2 8 + r3 in
      r4 <- at_ reply 4 ;; r5 <- at_ reply 5 ;;
      r6 <- at_ reply 6 ;; r7 <- at_ reply 7 ;;
      let hi := wrap_int32 (Z.shiftl r4 24) + Z.shiftl r5 16
                + Z.shiftl r6 8 + r7 in
      modify (upd_FocusAbsPosNP (on_np (with_max hi))) ;;
      modify (upd_FocusAbsPosNP (on_np (with_min lo))) ;;
      modify (upd_FocusAbsPosNP (with_s IPS_OK)) ;;
      modify (upd_FocusMaxPosNP (on_np (with_value hi))) ;;
      modify (upd_FocusMaxPosNP (with_s IPS_OK)) ;;
      modify (upd_FocusMinPosNP (on_np (with_value lo))) ;;
      modify (upd_FocusMinPosNP (with_s IPS_OK)) ;;
      emit (LOG_INFO "read limits hi %i lo %i" [hi; lo]) ;;
      ret true
  end.

(** [CelestronSCT::getStartupParameters] *)
Definition getStartupParameters : M Dev bool :=
  rc1 <- readPosition ;;
  (if rc1 then emit (IDSetNumber FOCUS_ABS_POS) else ret tt) ;;
  rc2 <- readLimits ;;
  (if rc2
   then emit (IUUpdateMinMax FOCUS_ABS_POS) ;;
        emit (IDSetNumber FOCUS_MAX) ;;
        emit (IDSetNumber FOCUS_MIN)
   else ret tt) ;;
  ret (rc1 && rc2).

(** [CelestronSCT::MoveAbsFocuser]; [targetTicks] is a [uint32_t]. *)
Definition MoveAbsFocuser (targetTicks : Z) : M Dev IPState :=
  let data := [uchar (Z.land (Z.shiftr targetTicks 16) 255);
               uchar (Z.land (Z.shiftr targetTicks 8) 255);
               uchar (Z.land targetTicks 255)] in
  emit (LOG_DEBUG "MoveAbs %i, %x %x %x\n"
          (targetTicks :: map byte_val data)) ;;
  ok <- blind FOCUSER MC_GOTO_FAST data ;;
  if negb ok then ret IPS_ALERT else ret IPS_BUSY.

(** [CelestronSCT::MoveRelFocuser]; [ticks] is a [uint32_t].  The
    difference or sum is formed in [double] and converted to [int32_t];
    the clamped value is passed on as a [uint32_t]. *)
Definition MoveRelFocuser (dir : FocusDirection) (ticks : Z) : M Dev IPState :=
  d <- get ;;
  newPosition <-
    lift (double_to_int32
            (match dir with
             | FOCUS_INWARD => value (FocusAbsPosN d) - ticks
             | FOCUS_OUTWARD => value (FocusAbsPosN d) + ticks
             end)) ;;
  hi <- lift (double_to_int32 (max (FocusAbsPosN d))) ;;
  let newPosition := Z.max 0 (Z.min hi newPosition) in
  MoveAbsFocuser (wrap_uint32 newPosition).

(** [CelestronSCT::TimerHit] *)
Definition TimerHit : M Dev unit :=
  d <- get ;;
  if negb (isConnected d)
  then emit SetTimer
  else
    let lastPosition := value (FocusAbsPosN d) in
    rc <- readPosition ;;
    d1 <- get ;;
    (if rc
     then if 1 <? Z.abs (lastPosition - value (FocusAbsPosN d1))
          then emit (IDSetNumber FOCUS_ABS_POS)
          else ret tt
     else ret tt) ;;
    d2 <- get ;;
    (if IPState_eqb (s (FocusAbsPosNP d2)) IPS_BUSY
        || IPState_eqb (s (FocusRelPosNP d2)) IPS_BUSY
     then
       moving <- isMoving ;;
       if negb moving
       then
         modify (upd_FocusAbsPosNP (with_s IPS_OK)) ;;
         modify (upd_FocusRelPosNP (with_s IPS_OK)) ;;
         emit (IDSetNumber FOCUS_ABS_POS) ;;
         emit (IDSetNumber FOCUS_REL_POS) ;;
         emit (LOG_INFO "Focuser reached requested position." [])
       else ret tt
     else ret tt) ;;
    emit SetTimer.

(** [CelestronSCT::AbortFocuser]: a move at rate 0. *)
Definition AbortFocuser : M Dev bool :=
  blind FOCUSER MC_MOVE_POS [x00].

End Operations.

(** ** A scripted link

    A concrete [Communicator]: queries are answered from a prepared list
    (an exhausted list is a dead link), blind sends succeed or fail as
    [blind_ok] says.  Every finite channel behaviour is such a script. *)

Record Scripted := { replies : list (option buffer); blind_ok : bool }.

#[export] Instance Scripted_Communicator : Communicator Scripted := {
  sendCommand l _ _ :=
    match replies l with
    | [] => (l, None)
    | r :: rs => ({| replies := rs; blind_ok := blind_ok l |}, r)
    end;
  commandBlind l _ _ _ := (l, blind_ok l)
}.

(** ** Reference notions used in the statements *)

(** The unsigned big-endian value of a byte sequence. *)
Definition be_value (bs : buffer) : Z :=
  fold_left (fun acc b => acc * 256 + byte_val b) bs 0.

(** The payload [MoveAbsFocuser] builds for a target. *)
Definition goto_payload (targetTicks : Z) : buffer :=
  [uchar (Z.land (Z.shiftr targetTicks 16) 255);
   uchar (Z.land (Z.shiftr targetTicks 8) 255);
   uchar (Z.land targetTicks 255)].

(** Targets of the goto commands found on a wire log. *)
Definition goto_targets (rs : list Request) : list Z :=
  flat_map (fun r => match r with
                     | Blind FOCUSER MC_GOTO_FAST data => [be_value data]
                     | _ => []
                     end) rs.

Definition is_query (r : Request) : bool :=
  match r with Query _ _ => true | Blind _ _ _ => false end.

(** [clamp x lo hi] with [lo] as the floor. *)
Definition clamp (x lo hi : Z) : Z := Z.max lo (Z.min hi x).

(** The target of a relative move before clamping. *)
Definition rel_target (dir : FocusDirection) (p n : Z) : Z :=
  match dir with
  | FOCUS_INWARD => p - n
  | FOCUS_OUTWARD => p + n
  end.

Definition set_self {Dev} (f : CelestronSCT -> CelestronSCT) (w : World Dev)
  : World Dev :=
  {| link := link w; wire := wire w; host := host w; self := f (self w) |}.

Definition sent {Dev} (w : World Dev) (l : Dev) (r : Request) : World Dev :=
  {| link := l; wire := wire w ++ [r]; host := host w; self := self w |}.

Definition told {Dev} (w : World Dev) (e : Event) : World Dev :=
  {| link := link w; wire := wire w; host := host w ++ [e]; self := self w |}.

(** The driver state [readLimits] leaves after decoding [lo] and [hi]. *)
Definition limits_stored (lo hi : Z) (d : CelestronSCT) : CelestronSCT :=
  upd_FocusMinPosNP (with_s IPS_OK)
    (upd_FocusMinPosNP (on_np (with_value lo))
       (upd_FocusMaxPosNP (with_s IPS_OK)
          (upd_FocusMaxPosNP (on_np (with_value hi))
             (upd_FocusAbsPosNP (with_s IPS_OK)
                (upd_FocusAbsPosNP (on_np (with_min lo))
                   (upd_FocusAbsPosNP (on_np (with_max hi)) d)))))).

(** The test that guards the completion check of [TimerHit]. *)
Definition poll_busy (d : CelestronSCT) : bool :=
  IPState_eqb (s (FocusAbsPosNP d)) IPS_BUSY
  || IPState_eqb (s (FocusRelPosNP d)) IPS_BUSY.

(** What [TimerHit] does once [isMoving] has answered [false]. *)
Definition reached {Dev} (w : World Dev) : World Dev :=
  told (told (told
    (set_self (fun d => upd_FocusRelPosNP (with_s IPS_OK)
                          (upd_FocusAbsPosNP (with_s IPS_OK) d)) w)
    (IDSetNumber FOCUS_ABS_POS))
    (IDSetNumber FOCUS_REL_POS))
    (LOG_INFO "Focuser reached requested position." []).

(** A link whose successful replies to the two poll queries are long
    enough for the reads [TimerHit] makes of them. *)
Definition well_sized {Dev} {comm : Communicator Dev} : Prop :=
  forall (l l' : Dev) (reply : buffer),
    (sendCommand l FOCUSER MC_GET_POSITION = (l', Some reply) ->
     (3 <= List.length reply)%nat)
    /\ (sendCommand l FOCUSER MC_SLEW_DONE = (l', Some reply) ->
        (1 <= List.length reply)%nat).

(** The marks of a move reported as complete. *)
Definition move_reached {Dev} (w : World Dev) : Prop :=
  s (FocusAbsPosNP (self w)) = IPS_OK
  /\ s (FocusRelPosNP (self w)) = IPS_OK
  /\ In (LOG_INFO "Focuser reached requested position." []) (host w).

(** ** Concrete driver states and links for the examples *)

(** A connected driver right after [initProperties], every property
    state idle. *)
Definition fresh : CelestronSCT :=
  let idle := {| np := {| value := 0; min := 0; max := 0 |}; s := IPS_IDLE |} in
  initProperties
    {| isConnected := true;
       FocusAbsPosNP := idle; FocusRelPosNP := idle; FocusMaxPosNP := idle;
       FocusMinPosNP := idle; BacklashNP := idle |}.

(** A driver whose limits were read as [lo], [hi] and whose cached
    position is [pos]. *)
Definition calibrated (lo hi pos : Z) : CelestronSCT :=
  upd_FocusAbsPosNP (on_np (with_value pos)) (limits_stored lo hi fresh).

Definition world (l : Scripted) (d : CelestronSCT) : World Scripted :=
  {| link := l; wire := []; host := []; self := d |}.

(** A link on which blind sends succeed and queries get [rs]. *)
Definition answering (rs : list (option buffer)) : Scripted :=
  {| replies := rs; blind_ok := true |}.

(** Limits 500 and 55000, position 30000 (bytes 00 75 30). *)
Definition at_30000 : CelestronSCT := calibrated 500 55000 30000.

(** The same driver at the upper limit. *)
Definition at_55000 : CelestronSCT := calibrated 500 55000 55000.

(** An absolute move in flight. *)
Definition abs_move_pending : CelestronSCT :=
  upd_FocusAbsPosNP (with_s IPS_BUSY) at_30000.

(** A relative move in flight. *)
Definition rel_move_pending : CelestronSCT :=
  upd_FocusRelPosNP (with_s IPS_BUSY) at_30000.

(** The position query is answered, the status query is not. *)
Definition status_query_lost : World Scripted :=
  world (answering [Some [x00; x75; x30]; None]) rel_move_pending.

(** Nothing is answered at all. *)
Definition link_down : World Scripted :=
  world {| replies := []; blind_ok := false |} abs_move_pending.

(** The driver at 31000 with a backlash of 100 steps configured, right
    after an outward move from 30000 completed; the link will report
    30000 and then "slew done". *)
Definition after_outward_move : World Scripted :=
  {| link := answering [Some [x00; x75; x30]; Some [xff]];
     wire := [Blind FOCUSER MC_GOTO_FAST [x00; x79; x18];
              Query FOCUSER MC_GET_POSITION; Query FOCUSER MC_SLEW_DONE];
     host := [];
     self := upd_BacklashNP (on_np (with_value 100))
               (calibrated 500 55000 31000) |}.

(** ** Sessions

    The entry points of the driver as calls, and a session as the calls
    made one after another on the same driver object and link. *)

Inductive Call :=
| CallAck
| CallHandshake
| CallReadPosition
| CallIsMoving
| CallReadLimits
| CallGetStartupParameters
| CallMoveAbsFocuser (targetTicks : Z)
| CallMoveRelFocuser (dir : FocusDirection) (ticks : Z)
| CallTimerHit
| CallAbortFocuser.

Section Sessions.

Context {Dev : Type} {comm : Communicator Dev}.

Definition exec (c : Call) : M Dev unit :=
  match c with
  | CallAck => Ack ;; ret tt
  | CallHandshake => Handshake ;; ret tt
  | CallReadPosition => readPosition ;; ret tt
  | CallIsMoving => isMoving ;; ret tt
  | CallReadLimits => readLimits ;; ret tt
  | CallGetStartupParameters => getStartupParameters ;; ret tt
  | CallMoveAbsFocuser t => MoveAbsFocuser t ;; ret tt
  | CallMoveRelFocuser dir n => MoveRelFocuser dir n ;; ret tt
  | CallTimerHit => TimerHit
  | CallAbortFocuser => AbortFocuser ;; ret tt
  end.

Fixpoint session (cs : list Call) : M Dev unit :=
  match cs with
  | [] => ret tt
  | c :: cs' => exec c ;; session cs'
  end.

End Sessions.

(** The numbers the driver holds are in step: the cached position is a
    24-bit quantity, both limits are [int] values, and the limits shown
    in the minimum and maximum properties are those of the absolute
    position property. *)
Definition in_step (d : CelestronSCT) : Prop :=
  0 <= value (FocusAbsPosN d) < 2 ^ 24
  /\ in_int32 (min (FocusAbsPosN d)) = true
  /\ in_int32 (max (FocusAbsPosN d)) = true
  /\ value (FocusMinPosN d) = min (FocusAbsPosN d)
  /\ value (FocusMaxPosN d) = max (FocusAbsPosN d).

(** The same world with the backlash property rewritten. *)
Definition with_backlash {Dev} (f : INumberVectorProperty -> INumberVectorProperty)
    (w : World Dev) : World Dev :=
  set_self (upd_BacklashNP f) w.

(** The outcome of an operation, carried to the rewritten world. *)
Definition carried {Dev A} (g : World Dev -> World Dev)
    (r : option (A * World Dev)) : option (A * World Dev) :=
  match r with
  | Some (a, w) => Some (a, g w)
  | None => None
  end.

Definition is_some {A} (o : option A) : bool :=
  match o with Some _ => true | None => false end.

(** A reply, if there is one, has at least [n] bytes. *)
Definition sized (n : nat) (r : option buffer) : bool :=
  match r with
  | Some reply => Nat.leb n (List.length reply)
  | None => true
  end.

Definition is_move (c : Call) : bool :=
  match c with
  | CallMoveAbsFocuser _ | CallMoveRelFocuser _ _ => true
  | _ => false
  end.

(** ** A steady link

    A [Communicator] that gives the same answer to every position query
    and to every status query, fails every other query and accepts
    every blind send. *)

Record Steady := {
  position_answer : option (byte * byte * byte);
  status_answer : option byte
}.

#[export] Instance Steady_Communicator : Communicator Steady := {
  sendCommand l _ cmd :=
    (l, match cmd with
        | MC_GET_POSITION =>
            match position_answer l with
            | Some (b0, b1, b2) => Some [b0; b1; b2]
            | None => None
            end
        | MC_SLEW_DONE =>
            match status_answer l with
            | Some b => Some [b]
            | None => None
            end
        | _ => None
        end);
  commandBlind l _ _ _ := (l, true)
}.

(** The driver object after [readPosition] stored [p]. *)
Definition position_stored (p : Z) (d : CelestronSCT) : CelestronSCT :=
  upd_FocusAbsPosNP (with_s IPS_OK)
    (upd_FocusAbsPosNP (on_np (with_value p)) d).

(** A short session: the startup reads (position 30000, limits 500 and
    55000), a relative move of 1000 ticks inward, a poll tick that sees
    position 29000 and "slew done", and an abort. *)
Definition short_session : list Call :=
  [CallGetStartupParameters; CallMoveRelFocuser FOCUS_INWARD 1000;
   CallTimerHit; CallAbortFocuser].

Definition short_session_world : World Scripted :=
  world (answering [Some [x00; x75; x30];
                    Some [x00; x00; x01; xf4; x00; x00; xd6; xd8];
                    Some [x00; x71; x48]; Some [xff]])
        fresh.

(** A steady link reporting position 30000 whose status query fails,
    with a relative move in flight. *)
Definition steady_world : World Steady :=
  {| link := {| position_answer := Some (x00, x75, x30);
                status_answer := None |};
     wire := []; host := []; self := rel_move_pending |}.

(** ** Bytes and big-endian arithmetic *)

Lemma byte_val_range (b : byte) : 0 <= byte_val b < 256.
Proof.
  unfold byte_val. pose proof (Byte.to_N_bounded b). lia.
Qed.

Lemma byte_val_uchar (z : Z) : byte_val (uchar z) = z mod 256.
Proof.
  unfold uchar, byte_val.
  assert (Hr : 0 <= z mod 256 < 256) by (apply Z.mod_pos_bound; lia).
  destruct (Byte.of_N (Z.to_N (z mod 256))) as [b|] eqn:E.
  - apply Byte.to_of_N in E. rewrite E. lia.
  - apply Byte.of_N_None_iff in E. lia.
Qed.

Lemma byte_val_inj (a b : byte) : byte_val a = byte_val b -> a = b.
Proof.
  unfold byte_val. intros E. apply N2Z.inj in E.
  pose proof (Byte.of_to_N a) as Ha. pose proof (Byte.of_to_N b) as Hb.
  congruence.
Qed.

Lemma land_255 (z : Z) : Z.land z 255 = z mod 256.
Proof. change 255 with (Z.ones 8). rewrite Z.land_ones by lia. reflexivity. Qed.

Lemma be_value_3 (b0 b1 b2 : byte) :
  be_value [b0; b1; b2]
  = Z.shiftl (byte_val b0) 16 + Z.shiftl (byte_val b1) 8 + byte_val b2.
Proof.
  unfold be_value. cbn [fold_left].
  rewrite !Z.shiftl_mul_pow2 by lia. lia.
Qed.

Lemma be_value_3_range (b0 b1 b2 : byte) : 0 <= be_value [b0; b1; b2] < 2 ^ 24.
Proof.
  unfold be_value. cbn [fold_left].
  pose proof (byte_val_range b0). pose proof (byte_val_range b1).
  pose proof (byte_val_range b2). lia.
Qed.

Lemma be_value_4 (b0 b1 b2 b3 : byte) :
  be_value [b0; b1; b2; b3]
  = Z.shiftl (byte_val b0) 24 + Z.shiftl (byte_val b1) 16
    + Z.shiftl (byte_val b2) 8 + byte_val b3.
Proof.
  unfold be_value. cbn [fold_left].
  rewrite !Z.shiftl_mul_pow2 by lia. lia.
Qed.

Lemma be_value_4_range (b0 b1 b2 b3 : byte) :
  0 <= be_value [b0; b1; b2; b3] < 2 ^ 32.
Proof.
  unfold be_value. cbn [fold_left].
  pose proof (byte_val_range b0). pose proof (byte_val_range b1).
  pose proof (byte_val_range b2). pose proof (byte_val_range b3). lia.
Qed.

(** The [int] that [readLimits] assembles from four bytes is the two's
    complement reading of their big-endian value. *)
Lemma int_of_4_bytes (b0 b1 b2 b3 : byte) :
  wrap_int32 (Z.shiftl (byte_val b0) 24) + Z.shiftl (byte_val b1) 16
  + Z.shiftl (byte_val b2) 8 + byte_val b3
  = wrap_int32 (be_value [b0; b1; b2; b3]).
Proof.
  rewrite be_value_4. unfold wrap_int32.
  rewrite !Z.shiftl_mul_pow2 by lia.
  pose proof (byte_val_range b0). pose proof (byte_val_range b1).
  pose proof (byte_val_range b2). pose proof (byte_val_range b3).
  destruct (Z_lt_ge_dec (byte_val b0) 128).
  - rewrite !Z.mod_small by lia. lia.
  - rewrite <- (Z.add_opp_r _ (2 ^ 31)).
    replace (byte_val b0 * 2 ^ 24 + 2 ^ 31)
      with (byte_val b0 * 2 ^ 24 - 2 ^ 31 + 1 * 2 ^ 32) by lia.
    replace (byte_val b0 * 2 ^ 24 + byte_val b1 * 2 ^ 16
             + byte_val b2 * 2 ^ 8 + byte_val b3 + 2 ^ 31)
      with (byte_val b0 * 2 ^ 24 + byte_val b1 * 2 ^ 16
            + byte_val b2 * 2 ^ 8 + byte_val b3 - 2 ^ 31 + 1 * 2 ^ 32) by lia.
    rewrite !Z.mod_add by lia.
    rewrite !Z.mod_small by lia. lia.
Qed.

Lemma wrap_int32_small (z : Z) : 0 <= z < 2 ^ 31 -> wrap_int32 z = z.
Proof. intros Hz. unfold wrap_int32. rewrite Z.mod_small by lia. lia. Qed.

(** The three payload bytes carry the low 24 bits of the target. *)
Lemma be_value_goto_payload (t : Z) : be_value (goto_payload t) = t mod 2 ^ 24.
Proof.
  unfold goto_payload, be_value. cbn [fold_left].
  rewrite !byte_val_uchar, !land_255, !Z.shiftr_div_pow2 by lia.
  rewrite !Z.mod_mod by lia.
  change (2 ^ 16) with 65536. change (2 ^ 8) with 256.
  change (2 ^ 24) with 16777216.
  pose proof (Z.div_mod t 16777216 ltac:(lia)).
  pose proof (Z.mod_pos_bound t 16777216 ltac:(lia)).
  set (r := t mod 16777216) in *.
  assert (E16 : (t / 65536) mod 256 = r / 65536).
  { replace t with (r + (t / 16777216) * 16777216) by lia.
    replace (r + t / 16777216 * 16777216)
      with (r + (t / 16777216 * 256) * 65536) by lia.
    rewrite Z.div_add by lia.
    rewrite Z.mod_add by lia.
    apply Z.mod_small. split.
    - apply Z.div_pos; lia.
    - apply Z.div_lt_upper_bound; lia. }
  assert (E8 : (t / 256) mod 256 = (r / 256) mod 256).
  { replace t with (r + (t / 16777216) * 16777216) at 1 by lia.
    replace (r + t / 16777216 * 16777216)
      with (r + (t / 16777216 * 65536) * 256) by lia.
    rewrite Z.div_add by lia.
    replace (r / 256 + t / 16777216 * 65536)
      with (r / 256 + (t / 16777216 * 256) * 256) by lia.
    rewrite Z.mod_add by lia. reflexivity. }
  assert (E0 : t mod 256 = r mod 256).
  { replace t with (r + (t / 16777216 * 65536) * 256) at 1 by lia.
    rewrite Z.mod_add by lia. reflexivity. }
  rewrite E16, E8, E0.
  pose proof (Z.div_mod r 65536 ltac:(lia)).
  pose proof (Z.div_mod r 256 ltac:(lia)).
  pose proof (Z.div_mod (r / 256) 256 ltac:(lia)).
  assert (r / 256 / 256 = r / 65536).
  { rewrite Z.div_div by lia. reflexivity. }
  lia.
Qed.

Lemma clamp_piecewise (x lo hi : Z) :
  lo <= hi ->
  clamp x lo hi = if x <? lo then lo else if hi <? x then hi else x.
Proof.
  intros Hle. unfold clamp.
  destruct (Z.ltb_spec x lo); destruct (Z.ltb_spec hi x); lia.
Qed.

Lemma clamp_range (x lo hi : Z) : lo <= hi -> lo <= clamp x lo hi <= hi.
Proof. unfold clamp. lia. Qed.

(** ** Equations of the channel-level operations *)

Ltac run_with E :=
  cbv [bind send blind]; rewrite E;
  cbv [bind ret get modify emit lift undefined at_ option_map nth_error].

Section Equations.

Context {Dev : Type} {comm : Communicator Dev}.
Implicit Types (w : World Dev) (l : Dev) (reply rest : buffer).

Lemma readPosition_fail w l :
  sendCommand (link w) FOCUSER MC_GET_POSITION = (l, None) ->
  readPosition w = Some (false, sent w l (Query FOCUSER MC_GET_POSITION)).
Proof. intros E. unfold readPosition. run_with E. reflexivity. Qed.

Lemma readPosition_ok w l b0 b1 b2 rest :
  sendCommand (link w) FOCUSER MC_GET_POSITION
    = (l, Some (b0 :: b1 :: b2 :: rest)) ->
  readPosition w
  = Some (true,
          set_self
            (fun d => upd_FocusAbsPosNP (with_s IPS_OK)
                        (upd_FocusAbsPosNP
                           (on_np (with_value (be_value [b0; b1; b2]))) d))
            (told (sent w l (Query FOCUSER MC_GET_POSITION))
                  (LOG_DEBUG "readPosition %i" [be_value [b0; b1; b2]]))).
Proof.
  intros E. unfold readPosition. run_with E.
  rewrite be_value_3. reflexivity.
Qed.

Lemma readPosition_short w l reply :
  sendCommand (link w) FOCUSER MC_GET_POSITION = (l, Some reply) ->
  (List.length reply < 3)%nat ->
  readPosition w = None.
Proof.
  intros E Hlen. unfold readPosition. run_with E.
  destruct reply as [|b0 [|b1 [|b2 rest]]]; cbn in Hlen; try reflexivity; lia.
Qed.

Lemma isMoving_fail w l :
  sendCommand (link w) FOCUSER MC_SLEW_DONE = (l, None) ->
  isMoving w = Some (false, sent w l (Query FOCUSER MC_SLEW_DONE)).
Proof. intros E. unfold isMoving. run_with E. reflexivity. Qed.

Lemma isMoving_ok w l b rest :
  sendCommand (link w) FOCUSER MC_SLEW_DONE = (l, Some (b :: rest)) ->
  isMoving w
  = Some (negb (byte_val b =? 255), sent w l (Query FOCUSER MC_SLEW_DONE)).
Proof. intros E. unfold isMoving. run_with E. reflexivity. Qed.

Lemma isMoving_empty w l :
  sendCommand (link w) FOCUSER MC_SLEW_DONE = (l, Some []) ->
  isMoving w = None.
Proof. intros E. unfold isMoving. run_with E. reflexivity. Qed.

Lemma byte_is_ff (b : byte) : (byte_val b =? 255) = true <-> b = xff.
Proof.
  rewrite Z.eqb_eq. split.
  - intros E. apply byte_val_inj. exact E.
  - intros ->. reflexivity.
Qed.

Lemma readLimits_fail w l :
  sendCommand (link w) FOCUSER FOC_GET_HS_POSITIONS = (l, None) ->
  readLimits w = Some (false, sent w l (Query FOCUSER FOC_GET_HS_POSITIONS)).
Proof. intros E. unfold readLimits. run_with E. reflexivity. Qed.

Lemma readLimits_ok w l b0 b1 b2 b3 b4 b5 b6 b7 rest :
  sendCommand (link w) FOCUSER FOC_GET_HS_POSITIONS
    = (l, Some (b0 :: b1 :: b2 :: b3 :: b4 :: b5 :: b6 :: b7 :: rest)) ->
  let lo := wrap_int32 (be_value [b0; b1; b2; b3]) in
  let hi := wrap_int32 (be_value [b4; b5; b6; b7]) in
  readLimits w
  = Some (true,
          told (set_self (limits_stored lo hi)
                  (sent w l (Query FOCUSER FOC_GET_HS_POSITIONS)))
               (LOG_INFO "read limits hi %i lo %i" [hi; lo])).
Proof.
  intros E lo hi. subst lo hi.
  rewrite <- (int_of_4_bytes b0 b1 b2 b3), <- (int_of_4_bytes b4 b5 b6 b7).
  unfold readLimits. run_with E. reflexivity.
Qed.

Lemma readLimits_short w l reply :
  sendCommand (link w) FOCUSER FOC_GET_HS_POSITIONS = (l, Some reply) ->
  (List.length reply < 8)%nat ->
  readLimits w = None.
Proof.
  intros E Hlen.
  do 8 (destruct reply as [|? reply];
        [unfold readLimits; run_with E; reflexivity|]).
  cbn in Hlen. lia.
Qed.

Lemma Ack_fail w l :
  sendCommand (link w) FOCUSER GET_VER = (l, None) ->
  Ack w = Some (false, sent w l (Query FOCUSER GET_VER)).
Proof. intros E. unfold Ack. run_with E. reflexivity. Qed.

Lemma Ack_version4 w l b0 b1 b2 b3 :
  sendCommand (link w) FOCUSER GET_VER = (l, Some [b0; b1; b2; b3]) ->
  Ack w
  = Some (true,
          told (sent w l (Query FOCUSER GET_VER))
               (LOG_INFO "Firmware Version %i.%i.%i"
                  [byte_val b0; byte_val b1;
                   Z.shiftl (byte_val b2) 8 + byte_val b3])).
Proof. intros E. unfold Ack. run_with E. reflexivity. Qed.

Lemma Ack_version2 w l b0 b1 rest :
  sendCommand (link w) FOCUSER GET_VER = (l, Some (b0 :: b1 :: rest)) ->
  List.length rest <> 2%nat ->
  Ack w
  = Some (true,
          told (sent w l (Query FOCUSER GET_VER))
               (LOG_INFO "Firmware Version %i.%i" [byte_val b0; byte_val b1])).
Proof.
  intros E Hlen. unfold Ack. run_with E.
  destruct rest as [|c [|c' [|c'' rest]]]; try reflexivity.
  cbn in Hlen. congruence.
Qed.

Lemma MoveAbsFocuser_eq w t :
  MoveAbsFocuser t w
  = let r := commandBlind (link w) FOCUSER MC_GOTO_FAST (goto_payload t) in
    Some (if snd r then IPS_BUSY else IPS_ALERT,
          sent (told w (LOG_DEBUG "MoveAbs %i, %x %x %x\n"
                          (t :: map byte_val (goto_payload t))))
               (fst r) (Blind FOCUSER MC_GOTO_FAST (goto_payload t))).
Proof.
  unfold MoveAbsFocuser, goto_payload.
  cbv [bind emit blind ret link wire host self told sent].
  destruct (commandBlind _ _ _ _) as [l [|]]; reflexivity.
Qed.

Lemma AbortFocuser_eq w :
  AbortFocuser w
  = let r := commandBlind (link w) FOCUSER MC_MOVE_POS [x00] in
    Some (snd r, sent w (fst r) (Blind FOCUSER MC_MOVE_POS [x00])).
Proof.
  unfold AbortFocuser, blind, sent.
  destruct (commandBlind _ _ _ _) as [l ok]; reflexivity.
Qed.

Lemma MoveRelFocuser_eq w dir n :
  in_int32 (rel_target dir (value (FocusAbsPosN (self w))) n) = true ->
  in_int32 (max (FocusAbsPosN (self w))) = true ->
  MoveRelFocuser dir n w
  = MoveAbsFocuser
      (clamp (rel_target dir (value (FocusAbsPosN (self w))) n) 0
             (max (FocusAbsPosN (self w)))) w.
Proof.
  intros Hp Hm. unfold MoveRelFocuser.
  cbv [bind get lift double_to_int32].
  replace (match dir with
           | FOCUS_INWARD => value (FocusAbsPosN (self w)) - n
           | FOCUS_OUTWARD => value (FocusAbsPosN (self w)) + n
           end)
    with (rel_target dir (value (FocusAbsPosN (self w))) n)
    by (destruct dir; reflexivity).
  rewrite Hp. cbv [ret]. rewrite Hm.
  f_equal. unfold wrap_uint32, clamp.
  apply Z.mod_small.
  unfold in_int32 in Hm. apply andb_prop in Hm as [_ Hm].
  apply Z.leb_le in Hm. lia.
Qed.

End Equations.

(** ** The polling callback, phase by phase *)

Section Polling.

Context {Dev : Type} {comm : Communicator Dev}.
Implicit Types (w : World Dev) (l : Dev).

Lemma TimerHit_disconnected w :
  isConnected (self w) = false ->
  TimerHit w = Some (tt, told w SetTimer).
Proof.
  intros Hc. unfold TimerHit. cbv [bind get]. rewrite Hc. reflexivity.
Qed.

Lemma TimerHit_connected w rc w1 :
  isConnected (self w) = true ->
  readPosition w = Some (rc, w1) ->
  TimerHit w
  = let w2 :=
      if rc && (1 <? Z.abs (value (FocusAbsPosN (self w))
                            - value (FocusAbsPosN (self w1))))
      then told w1 (IDSetNumber FOCUS_ABS_POS) else w1 in
    if poll_busy (self w2)
    then match isMoving w2 with
         | Some (moving, w3) =>
             Some (tt, told (if negb moving then reached w3 else w3) SetTimer)
         | None => None
         end
    else Some (tt, told w2 SetTimer).
Proof.
  intros Hc Hr. unfold TimerHit. cbv [bind get]. rewrite Hc. cbn [negb].
  rewrite Hr. unfold poll_busy.
  destruct rc; cbn [andb].
  - destruct (1 <? _); cbv [emit ret told self]; cbn [self];
      (destruct (_ || _);
       [ destruct (isMoving _) as [[[|] w3]|]; reflexivity | reflexivity ]).
  - cbv [ret]. destruct (_ || _);
      [ destruct (isMoving _) as [[[|] w3]|]; reflexivity | reflexivity ].
Qed.

Lemma TimerHit_position_undefined w :
  isConnected (self w) = true ->
  readPosition w = None ->
  TimerHit w = None.
Proof.
  intros Hc Hr. unfold TimerHit. cbv [bind get]. rewrite Hc. cbn [negb].
  rewrite Hr. reflexivity.
Qed.

(** Frame facts: what a query leaves alone. *)

Lemma readPosition_frame w rc w1 :
  readPosition w = Some (rc, w1) ->
  wire w1 = wire w ++ [Query FOCUSER MC_GET_POSITION]
  /\ FocusRelPosNP (self w1) = FocusRelPosNP (self w)
  /\ (rc = false -> self w1 = self w).
Proof.
  destruct (sendCommand (link w) FOCUSER MC_GET_POSITION) as [l [reply|]] eqn:E.
  - destruct reply as [|b0 [|b1 [|b2 rest]]];
      try (rewrite (readPosition_short w l _ E) by (cbn; lia); discriminate).
    rewrite (readPosition_ok w l b0 b1 b2 rest E).
    intros [= <- <-]. cbn. repeat split. discriminate.
  - rewrite (readPosition_fail w l E). intros [= <- <-]. cbn. auto.
Qed.

Lemma isMoving_frame w moving w1 :
  isMoving w = Some (moving, w1) ->
  wire w1 = wire w ++ [Query FOCUSER MC_SLEW_DONE]
  /\ host w1 = host w /\ self w1 = self w.
Proof.
  destruct (sendCommand (link w) FOCUSER MC_SLEW_DONE) as [l [reply|]] eqn:E.
  - destruct reply as [|b rest].
    + rewrite (isMoving_empty w l E). discriminate.
    + rewrite (isMoving_ok w l b rest E). intros [= <- <-]. cbn. auto.
  - rewrite (isMoving_fail w l E). intros [= <- <-]. cbn. auto.
Qed.

(** A poll tick puts nothing but queries on the wire. *)
Lemma TimerHit_wire w u w' :
  TimerHit w = Some (u, w') ->
  exists qs, wire w' = wire w ++ qs
             /\ forallb is_query qs = true
             /\ (List.length qs <= 2)%nat.
Proof.
  destruct (isConnected (self w)) eqn:Hc.
  - destruct (readPosition w) as [[rc w1]|] eqn:Hr.
    + rewrite (TimerHit_connected w rc w1 Hc Hr). cbv zeta.
      destruct (readPosition_frame w rc w1 Hr) as (Hw1 & _ & _).
      match goal with
      | |- context [if ?c then told w1 ?e else w1] =>
          set (w2 := if c then told w1 e else w1)
      end.
      assert (Hw2 : wire w2 = wire w1) by (subst w2; destruct (_ && _); reflexivity).
      destruct (poll_busy (self w2)).
      * destruct (isMoving w2) as [[moving w3]|] eqn:Hm; [|discriminate].
        destruct (isMoving_frame w2 moving w3 Hm) as (Hw3 & _ & _).
        intros [= <- <-].
        exists [Query FOCUSER MC_GET_POSITION; Query FOCUSER MC_SLEW_DONE].
        split; [|split; [reflexivity | cbn; lia]].
        destruct moving; cbv [negb reached told set_self wire];
          fold (wire w3); rewrite Hw3, Hw2, Hw1, <- app_assoc; reflexivity.
      * intros [= <- <-]. exists [Query FOCUSER MC_GET_POSITION].
        split; [|split; [reflexivity | cbn; lia]].
        cbn. rewrite Hw2, Hw1. reflexivity.
    + rewrite (TimerHit_position_undefined w Hc Hr). discriminate.
  - rewrite (TimerHit_disconnected w Hc). intros [= <- <-].
    exists []. split; [|split; [reflexivity | cbn; lia]].
    cbn. rewrite app_nil_r. reflexivity.
Qed.

End Polling.

(** ** Wire logs *)

Lemma goto_targets_app (a b : list Request) :
  goto_targets (a ++ b) = goto_targets a ++ goto_targets b.
Proof. unfold goto_targets. apply flat_map_app. Qed.

Lemma goto_targets_queries (qs : list Request) :
  forallb is_query qs = true -> goto_targets qs = [].
Proof.
  induction qs as [|r qs IH]; [reflexivity|].
  cbn [forallb]. intros Hq. apply andb_prop in Hq as [Hr Hqs].
  destruct r as [dst cmd|dst cmd data]; [|discriminate].
  cbn. apply IH, Hqs.
Qed.

Section Moves.

Context {Dev : Type} {comm : Communicator Dev}.
Implicit Types (w : World Dev) (l : Dev).

Lemma MoveAbsFocuser_total w t :
  exists st w',
    MoveAbsFocuser t w = Some (st, w')
    /\ st = (if snd (commandBlind (link w) FOCUSER MC_GOTO_FAST
                       (goto_payload t))
             then IPS_BUSY else IPS_ALERT)
    /\ wire w' = wire w ++ [Blind FOCUSER MC_GOTO_FAST (goto_payload t)]
    /\ self w' = self w.
Proof.
  rewrite MoveAbsFocuser_eq. cbv zeta.
  eexists. eexists. split; [reflexivity|]. cbn. auto.
Qed.

(** A relative move answers only when both conversions to [int32_t]
    are defined. *)
Lemma MoveRelFocuser_defined w dir n st w' :
  MoveRelFocuser dir n w = Some (st, w') ->
  in_int32 (rel_target dir (value (FocusAbsPosN (self w))) n) = true
  /\ in_int32 (max (FocusAbsPosN (self w))) = true.
Proof.
  unfold MoveRelFocuser. cbv [bind get lift double_to_int32].
  replace (match dir with
           | FOCUS_INWARD => value (FocusAbsPosN (self w)) - n
           | FOCUS_OUTWARD => value (FocusAbsPosN (self w)) + n
           end)
    with (rel_target dir (value (FocusAbsPosN (self w))) n)
    by (destruct dir; reflexivity).
  destruct (in_int32 (rel_target _ _ _)); cbv [ret undefined]; [|discriminate].
  destruct (in_int32 (max _)); [auto | discriminate].
Qed.

Lemma TimerHit_status_failure w rc w1 l :
  isConnected (self w) = true ->
  readPosition w = Some (rc, w1) ->
  poll_busy (self w1) = true ->
  sendCommand (link w1) FOCUSER MC_SLEW_DONE = (l, None) ->
  exists w', TimerHit w = Some (tt, w') /\ move_reached w'.
Proof.
  intros Hc Hr Hb E.
  rewrite (TimerHit_connected w rc w1 Hc Hr). cbv zeta.
  match goal with
  | |- context [if ?c then told w1 ?e else w1] =>
      set (w2 := if c then told w1 e else w1)
  end.
  assert (Hs : self w2 = self w1) by (subst w2; destruct (_ && _); reflexivity).
  assert (Hl : link w2 = link w1) by (subst w2; destruct (_ && _); reflexivity).
  rewrite Hs, Hb. rewrite <- Hl in E.
  rewrite (isMoving_fail w2 l E). cbn [negb].
  eexists. split; [reflexivity|].
  unfold move_reached. cbn. repeat split.
  rewrite !in_app_iff. cbn. auto.
Qed.

(** Property X9.  The completion check of a poll tick: when a move
    property is still busy after the position refresh and the status
    query is answered, the byte 0xFF marks both move properties IPS_OK
    and reports the position as reached, and any other byte leaves the
    driver object as the position refresh left it. *)
Lemma TimerHit_status_byte w rc w1 l b rest :
  isConnected (self w) = true ->
  readPosition w = Some (rc, w1) ->
  poll_busy (self w1) = true ->
  sendCommand (link w1) FOCUSER MC_SLEW_DONE = (l, Some (b :: rest)) ->
  exists w', TimerHit w = Some (tt, w')
             /\ if Byte.eqb b xff then move_reached w' else self w' = self w1.
Proof.
  intros Hc Hr Hb E.
  rewrite (TimerHit_connected w rc w1 Hc Hr). cbv zeta.
  match goal with
  | |- context [if ?c then told w1 ?e else w1] =>
      set (w2 := if c then told w1 e else w1)
  end.
  assert (Hs : self w2 = self w1) by (subst w2; destruct (_ && _); reflexivity).
  assert (Hl : link w2 = link w1) by (subst w2; destruct (_ && _); reflexivity).
  rewrite Hs, Hb. rewrite <- Hl in E.
  rewrite (isMoving_ok w2 l b rest E).
  destruct (byte_val b =? 255) eqn:Eb.
  - apply byte_is_ff in Eb. subst b. cbn [negb].
    eexists. split; [reflexivity|].
    change (Byte.eqb xff xff) with true. cbv iota.
    unfold move_reached. cbn. repeat split.
    rewrite !in_app_iff. cbn. auto.
  - assert (Hne : Byte.eqb b xff = false).
    { destruct (Byte.eqb b xff) eqn:Ee; [|reflexivity].
      apply Byte.byte_dec_bl in Ee. subst b. discriminate. }
    cbn [negb]. eexists. split; [reflexivity|].
    rewrite Hne. cbn. exact Hs.
Qed.

(** On a well-sized link every poll tick runs to its end. *)
Lemma TimerHit_total w :
  well_sized -> exists w', TimerHit w = Some (tt, w').
Proof.
  intros Hsz.
  destruct (isConnected (self w)) eqn:Hc.
  2: { rewrite (TimerHit_disconnected w Hc). eexists. reflexivity. }
  assert (Hr : exists rc w1, readPosition w = Some (rc, w1)).
  { destruct (sendCommand (link w) FOCUSER MC_GET_POSITION)
      as [l [reply|]] eqn:E.
    - pose proof (proj1 (Hsz _ _ _) E) as Hlen.
      destruct reply as [|b0 [|b1 [|b2 rest]]]; cbn in Hlen; try lia.
      rewrite (readPosition_ok w l b0 b1 b2 rest E).
      eexists. eexists. reflexivity.
    - rewrite (readPosition_fail w l E). eexists. eexists. reflexivity. }
  destruct Hr as (rc & w1 & Hr).
  rewrite (TimerHit_connected w rc w1 Hc Hr). cbv zeta.
  match goal with
  | |- context [if ?c then told w1 ?e else w1] =>
      set (w2 := if c then told w1 e else w1)
  end.
  destruct (poll_busy (self w2)); [|eexists; reflexivity].
  destruct (sendCommand (link w2) FOCUSER MC_SLEW_DONE)
    as [l [reply|]] eqn:E.
  - pose proof (proj2 (Hsz _ _ _) E) as Hlen.
    destruct reply as [|b rest]; cbn in Hlen; try lia.
    rewrite (isMoving_ok w2 l b rest E). eexists. reflexivity.
  - rewrite (isMoving_fail w2 l E). eexists. reflexivity.
Qed.

Lemma Handshake_of_Ack w ok w1 :
  Ack w = Some (ok, w1) ->
  exists w', Handshake w = Some (ok, w').
Proof.
  intros E. unfold Handshake. cbv [bind]. rewrite E.
  destruct ok; cbv [emit ret]; eexists; reflexivity.
Qed.

End Moves.

Lemma wrap_int32_be_value (b0 b1 b2 b3 : byte) :
  byte_val b0 < 128 ->
  wrap_int32 (be_value [b0; b1; b2; b3]) = be_value [b0; b1; b2; b3].
Proof.
  intros Hb. apply wrap_int32_small.
  unfold be_value. cbn [fold_left].
  pose proof (byte_val_range b0). pose proof (byte_val_range b1).
  pose proof (byte_val_range b2). pose proof (byte_val_range b3). lia.
Qed.

(** * Properties of the move controller *)

Section Claims.

Context {Dev : Type} {comm : Communicator Dev}.
Implicit Types (w : World Dev) (l : Dev).

(** Claim C1, as the code has it.  [MoveAbsFocuser] applies no clamp:
    whatever limits the driver holds, it sends exactly one MC_GOTO_FAST
    whose three-byte big-endian payload is the requested target (its low
    24 bits), and it changes nothing in the driver object. *)
Theorem MoveAbsFocuser_sends_target_unclamped w t :
  exists st w',
    MoveAbsFocuser t w = Some (st, w')
    /\ wire w' = wire w ++ [Blind FOCUSER MC_GOTO_FAST (goto_payload t)]
    /\ goto_targets (wire w') = goto_targets (wire w) ++ [t mod 2 ^ 24]
    /\ self w' = self w.
Proof.
  destruct (MoveAbsFocuser_total w t) as (st & w' & E & _ & Hw & Hs).
  exists st, w'. repeat split; try assumption.
  rewrite Hw, goto_targets_app. f_equal.
  unfold goto_targets. cbn [flat_map app].
  rewrite be_value_goto_payload. reflexivity.
Qed.

(** Claim C3, as the code has it.  No move has a backlash phase, whatever
    its direction: a relative or absolute move request sends a single
    goto for its own target, and a poll tick sends nothing but (at most
    two) queries, so it never starts a final-phase move. *)
Theorem moves_are_single_phase w :
  (forall dir n st w',
      MoveRelFocuser dir n w = Some (st, w') ->
      wire w' = wire w ++
        [Blind FOCUSER MC_GOTO_FAST
           (goto_payload (clamp (rel_target dir (value (FocusAbsPosN (self w))) n)
                                0 (max (FocusAbsPosN (self w)))))])
  /\ (forall t st w',
         MoveAbsFocuser t w = Some (st, w') ->
         wire w' = wire w ++ [Blind FOCUSER MC_GOTO_FAST (goto_payload t)])
  /\ (forall u w',
         TimerHit w = Some (u, w') ->
         goto_targets (wire w') = goto_targets (wire w)
         /\ exists qs, wire w' = wire w ++ qs /\ forallb is_query qs = true).
Proof.
  assert (Habs : forall t st w',
             MoveAbsFocuser t w = Some (st, w') ->
             wire w' = wire w ++ [Blind FOCUSER MC_GOTO_FAST (goto_payload t)]).
  { intros t st w' E.
    destruct (MoveAbsFocuser_total w t) as (st0 & w0 & E0 & _ & Hw & _).
    congruence. }
  split; [|split].
  - intros dir n st w' E.
    destruct (MoveRelFocuser_defined w dir n st w' E) as [Hp Hm].
    rewrite (MoveRelFocuser_eq w dir n Hp Hm) in E.
    exact (Habs _ _ _ E).
  - exact Habs.
  - intros u w' E.
    destruct (TimerHit_wire w u w' E) as (qs & Hw & Hq & _).
    split; [|exists qs; auto].
    rewrite Hw, goto_targets_app, (goto_targets_queries qs Hq).
    apply app_nil_r.
Qed.

(** Claim C4, as the code has it.  [AbortFocuser] sends the rate-zero
    MC_MOVE_POS command whatever the state, answers whether the send
    succeeded, and leaves the driver object (the property states
    included) as it was. *)
Theorem AbortFocuser_only_sends_stop w :
  exists w',
    AbortFocuser w
    = Some (snd (commandBlind (link w) FOCUSER MC_MOVE_POS [x00]), w')
    /\ wire w' = wire w ++ [Blind FOCUSER MC_MOVE_POS [x00]]
    /\ host w' = host w
    /\ self w' = self w.
Proof.
  rewrite AbortFocuser_eq. cbv zeta.
  eexists. split; [reflexivity|]. cbn. auto.
Qed.

(** Claim C5, as the code has it.  A relative move by [n] from the
    cached position [p] is the absolute move to [clamp (p - n) 0 maxLimit]
    when inward and to [clamp (p + n) 0 maxLimit] when outward, for
    every amount that keeps the difference or sum, and for every
    maximum, within the range of [int32_t], where the conversions the
    code makes are defined. *)
Theorem MoveRelFocuser_is_clamped_MoveAbsFocuser w n :
  let p := value (FocusAbsPosN (self w)) in
  let maxLimit := max (FocusAbsPosN (self w)) in
  in_int32 maxLimit = true ->
  (in_int32 (p - n) = true ->
   MoveRelFocuser FOCUS_INWARD n w
   = MoveAbsFocuser (clamp (p - n) 0 maxLimit) w)
  /\ (in_int32 (p + n) = true ->
      MoveRelFocuser FOCUS_OUTWARD n w
      = MoveAbsFocuser (clamp (p + n) 0 maxLimit) w).
Proof.
  intros p maxLimit Hm. split; intros Hp.
  - exact (MoveRelFocuser_eq w FOCUS_INWARD n Hp Hm).
  - exact (MoveRelFocuser_eq w FOCUS_OUTWARD n Hp Hm).
Qed.

(** Claim C6.  [isMoving] reads one status byte with inverted sense:
    0xFF answers "not moving", every other byte answers "moving". *)
Theorem isMoving_inverted_sense w l b rest :
  sendCommand (link w) FOCUSER MC_SLEW_DONE = (l, Some (b :: rest)) ->
  exists moving w',
    isMoving w = Some (moving, w')
    /\ self w' = self w
    /\ (b = xff -> moving = false)
    /\ (b <> xff -> moving = true).
Proof.
  intros E. rewrite (isMoving_ok w l b rest E).
  eexists. eexists. split; [reflexivity|]. split; [reflexivity|].
  destruct (byte_val b =? 255) eqn:Eb.
  - apply byte_is_ff in Eb. split; [reflexivity | congruence].
  - split; [|reflexivity].
    intros ->. discriminate.
Qed.

(** Claim C7.  A failed limits query leaves the driver object, and so
    both limits, as they were, and a later relative move still clamps
    with the limit held before; a successful one stores the first four
    bytes, read big-endian, as the minimum and the next four as the
    maximum. *)
Theorem readLimits_outcomes w l :
  (sendCommand (link w) FOCUSER FOC_GET_HS_POSITIONS = (l, None) ->
   exists w',
     readLimits w = Some (false, w')
     /\ self w' = self w
     /\ forall dir n,
          in_int32 (rel_target dir (value (FocusAbsPosN (self w))) n) = true ->
          in_int32 (max (FocusAbsPosN (self w))) = true ->
          exists st w'',
            MoveRelFocuser dir n w' = Some (st, w'')
            /\ wire w'' = wire w' ++
                 [Blind FOCUSER MC_GOTO_FAST
                    (goto_payload
                       (clamp (rel_target dir (value (FocusAbsPosN (self w))) n)
                              0 (max (FocusAbsPosN (self w)))))])
  /\ (forall b0 b1 b2 b3 b4 b5 b6 b7 rest,
        sendCommand (link w) FOCUSER FOC_GET_HS_POSITIONS
          = (l, Some (b0 :: b1 :: b2 :: b3 :: b4 :: b5 :: b6 :: b7 :: rest)) ->
        exists w',
          readLimits w = Some (true, w')
          /\ min (FocusAbsPosN (self w')) = wrap_int32 (be_value [b0; b1; b2; b3])
          /\ max (FocusAbsPosN (self w')) = wrap_int32 (be_value [b4; b5; b6; b7])
          /\ value (FocusMinPosN (self w')) = wrap_int32 (be_value [b0; b1; b2; b3])
          /\ value (FocusMaxPosN (self w')) = wrap_int32 (be_value [b4; b5; b6; b7])).
Proof.
  split.
  - intros E. rewrite (readLimits_fail w l E).
    eexists. split; [reflexivity|]. split; [reflexivity|].
    intros dir n Hp Hm.
    set (w' := sent w l (Query FOCUSER FOC_GET_HS_POSITIONS)).
    change (self w) with (self w') in Hp, Hm |- *.
    rewrite (MoveRelFocuser_eq w' dir n Hp Hm).
    destruct (MoveAbsFocuser_total w'
                (clamp (rel_target dir (value (FocusAbsPosN (self w'))) n) 0
                       (max (FocusAbsPosN (self w')))))
      as (st & w'' & E' & _ & Hw & _).
    exists st, w''. auto.
  - intros b0 b1 b2 b3 b4 b5 b6 b7 rest E.
    rewrite (readLimits_ok w l b0 b1 b2 b3 b4 b5 b6 b7 rest E). cbv zeta.
    eexists. split; [reflexivity|]. cbn. auto.
Qed.

(** Claim C8, as the code has it.  [Ack], and with it the handshake,
    succeeds on every reply of two bytes or more, whatever its length;
    the length only chooses the log line (major.minor.build for four
    bytes, major.minor otherwise).  Only a failed query fails it. *)
Theorem Ack_accepts_any_reply_length w l :
  (forall b0 b1 rest,
      sendCommand (link w) FOCUSER GET_VER = (l, Some (b0 :: b1 :: rest)) ->
      exists w1 w2,
        Ack w = Some (true, w1)
        /\ Handshake w = Some (true, w2)
        /\ host w1 = host w ++
             [match rest with
              | [b2; b3] =>
                  LOG_INFO "Firmware Version %i.%i.%i"
                    [byte_val b0; byte_val b1;
                     Z.shiftl (byte_val b2) 8 + byte_val b3]
              | _ => LOG_INFO "Firmware Version %i.%i" [byte_val b0; byte_val b1]
              end])
  /\ (sendCommand (link w) FOCUSER GET_VER = (l, None) ->
      exists w1 w2,
        Ack w = Some (false, w1) /\ Handshake w = Some (false, w2)).
Proof.
  split.
  - intros b0 b1 rest E.
    assert (HA : exists w1, Ack w = Some (true, w1)
               /\ host w1 = host w ++
                    [match rest with
                     | [b2; b3] =>
                         LOG_INFO "Firmware Version %i.%i.%i"
                           [byte_val b0; byte_val b1;
                            Z.shiftl (byte_val b2) 8 + byte_val b3]
                     | _ => LOG_INFO "Firmware Version %i.%i"
                              [byte_val b0; byte_val b1]
                     end]).
    { destruct rest as [|b2 [|b3 [|b4 rest]]].
      - rewrite (Ack_version2 w l b0 b1 [] E) by (cbn; congruence).
        eexists; split; reflexivity.
      - rewrite (Ack_version2 w l b0 b1 [b2] E) by (cbn; congruence).
        eexists; split; reflexivity.
      - rewrite (Ack_version4 w l b0 b1 b2 b3 E).
        eexists; split; reflexivity.
      - rewrite (Ack_version2 w l b0 b1 (b2 :: b3 :: b4 :: rest) E)
          by (cbn; congruence).
        eexists; split; reflexivity. }
    destruct HA as (w1 & HA & Hh).
    destruct (Handshake_of_Ack w true w1 HA) as (w2 & HH).
    exists w1, w2. auto.
  - intros E.
    pose proof (Ack_fail w l E) as HA.
    destruct (Handshake_of_Ack w false _ HA) as (w2 & HH).
    eexists. exists w2. split; [exact HA | exact HH].
Qed.

(** Claim C9.  [readPosition] reads the first three reply bytes as an
    unsigned big-endian quantity and stores it as the current position
    when the query succeeds; when the query fails it answers [false]
    and leaves the driver object, the cached position included, as it
    was. *)
Theorem readPosition_outcomes w l :
  (forall b0 b1 b2 rest,
      sendCommand (link w) FOCUSER MC_GET_POSITION
        = (l, Some (b0 :: b1 :: b2 :: rest)) ->
      exists w',
        readPosition w = Some (true, w')
        /\ value (FocusAbsPosN (self w')) = be_value [b0; b1; b2]
        /\ 0 <= value (FocusAbsPosN (self w')) < 2 ^ 24)
  /\ (sendCommand (link w) FOCUSER MC_GET_POSITION = (l, None) ->
      exists w',
        readPosition w = Some (false, w')
        /\ self w' = self w).
Proof.
  split.
  - intros b0 b1 b2 rest E.
    rewrite (readPosition_ok w l b0 b1 b2 rest E).
    eexists. split; [reflexivity|].
    cbn [self set_self told sent FocusAbsPosN upd_FocusAbsPosNP
         FocusAbsPosNP with_s on_np np with_value value].
    split; [reflexivity | apply be_value_3_range].
  - intros E. rewrite (readPosition_fail w l E).
    eexists. split; reflexivity.
Qed.

(** Claim C10, as the code has it.  [MoveAbsFocuser] answers IPS_BUSY
    whenever the goto was sent, for every target (the cached position
    included), and IPS_ALERT otherwise; it never answers IPS_OK or
    IPS_IDLE.  It enters no state and reports nothing itself: the driver
    object is as it was and the host gets one debug line, no
    publication. *)
Theorem MoveAbsFocuser_busy_on_success w t :
  exists st w',
    MoveAbsFocuser t w = Some (st, w')
    /\ st = (if snd (commandBlind (link w) FOCUSER MC_GOTO_FAST
                       (goto_payload t))
             then IPS_BUSY else IPS_ALERT)
    /\ st <> IPS_OK /\ st <> IPS_IDLE
    /\ self w' = self w
    /\ host w' = host w ++
         [LOG_DEBUG "MoveAbs %i, %x %x %x\n"
            (t :: map byte_val (goto_payload t))].
Proof.
  rewrite MoveAbsFocuser_eq. cbv zeta.
  eexists. eexists. split; [reflexivity|].
  split; [reflexivity|].
  split; [destruct (snd _); discriminate|].
  split; [destruct (snd _); discriminate|].
  split; reflexivity.
Qed.

End Claims.

(** * The properties at concrete inputs *)

(** Claim C1 as written fails: with limits 500 and 55000 the request
    for 60000 goes out as 60000 (bytes 00 EA 60), not as the clamped
    55000. *)
Lemma MoveAbsFocuser_60000_is_not_clamped :
  exists w',
    MoveAbsFocuser 60000 (world (answering []) at_30000) = Some (IPS_BUSY, w')
    /\ min (FocusAbsPosN (self w')) = 500
    /\ max (FocusAbsPosN (self w')) = 55000
    /\ wire w' = [Blind FOCUSER MC_GOTO_FAST [x00; xea; x60]]
    /\ goto_targets (wire w') = [60000]
    /\ goto_targets (wire w') <> [clamp 60000 500 55000].
Proof.
  eexists. split; [reflexivity|].
  repeat split. discriminate.
Qed.

(** Claim C2 fails on the code: a relative move is in flight, the
    position query is answered and the MC_SLEW_DONE query fails; the
    poll tick nevertheless marks both properties IPS_OK and reports the
    position as reached. *)
Theorem TimerHit_failed_status_query_ends_move :
  exists w',
    TimerHit status_query_lost = Some (tt, w')
    /\ s (FocusRelPosNP (self status_query_lost)) = IPS_BUSY
    /\ s (FocusRelPosNP (self w')) = IPS_OK
    /\ s (FocusAbsPosNP (self w')) = IPS_OK
    /\ wire w' = [Query FOCUSER MC_GET_POSITION; Query FOCUSER MC_SLEW_DONE]
    /\ host w' = [LOG_DEBUG "readPosition %i" [30000];
                  IDSetNumber FOCUS_ABS_POS; IDSetNumber FOCUS_REL_POS;
                  LOG_INFO "Focuser reached requested position." [];
                  SetTimer].
Proof.
  eexists. split; [lazy; reflexivity|]. repeat split.
Qed.

(** The same with the link down altogether and an absolute move in
    flight. *)
Example TimerHit_link_down_ends_move :
  exists w', TimerHit link_down = Some (tt, w') /\ move_reached w'.
Proof.
  apply (TimerHit_status_failure link_down false
           (sent link_down (link link_down) (Query FOCUSER MC_GET_POSITION))
           (link link_down)); reflexivity.
Qed.

(** Claim C3 as written fails: the inward request that follows an
    outward move sends one goto, to the true target 30000, and the
    first poll tick that sees "slew done" ends the move; no overshoot
    goto and no poll-driven final goto appear on the wire. *)
Lemma reversal_completes_in_one_phase :
  exists w1 w2,
    value (BacklashN (self after_outward_move)) = 100
    /\ goto_targets (wire after_outward_move) = [31000]
    /\ MoveRelFocuser FOCUS_INWARD 1000 after_outward_move
       = Some (IPS_BUSY, w1)
    /\ TimerHit (set_self (upd_FocusRelPosNP (with_s IPS_BUSY)) w1)
       = Some (tt, w2)
    /\ s (FocusRelPosNP (self w2)) = IPS_OK
    /\ s (FocusAbsPosNP (self w2)) = IPS_OK
    /\ wire w2 = wire after_outward_move ++
                 [Blind FOCUSER MC_GOTO_FAST [x00; x75; x30];
                  Query FOCUSER MC_GET_POSITION; Query FOCUSER MC_SLEW_DONE]
    /\ goto_targets (wire w2) = [31000; 30000].
Proof.
  eexists. eexists.
  split; [reflexivity|]. split; [reflexivity|].
  split; [lazy; reflexivity|]. split; [lazy; reflexivity|].
  repeat split.
Qed.

Lemma moves_are_single_phase_witness :
  wire (world (answering []) at_55000) = []
  /\ (exists st w',
         MoveRelFocuser FOCUS_INWARD 1000 (world (answering []) at_55000)
         = Some (st, w')
         /\ wire w' = [Blind FOCUSER MC_GOTO_FAST [x00; xd2; xf0]])
  /\ (exists u w',
         TimerHit status_query_lost = Some (u, w')
         /\ goto_targets (wire w') = []).
Proof.
  split; [reflexivity|].
  pose proof (moves_are_single_phase (world (answering []) at_55000))
    as (Hrel & _ & _).
  pose proof (moves_are_single_phase status_query_lost) as (_ & _ & Hpoll).
  split.
  - assert (E : exists st w',
               MoveRelFocuser FOCUS_INWARD 1000 (world (answering []) at_55000)
               = Some (st, w'))
      by (eexists; eexists; lazy; reflexivity).
    destruct E as (st & w' & E).
    exists st, w'. split; [exact E|].
    exact (Hrel FOCUS_INWARD 1000 st w' E).
  - assert (E : exists u w', TimerHit status_query_lost = Some (u, w'))
      by (eexists; eexists; lazy; reflexivity).
    destruct E as (u & w' & E).
    exists u, w'. split; [exact E|].
    exact (proj1 (Hpoll u w' E)).
Defined.

(** Claim C4 as written fails: the stop command is sent and accepted,
    yet the property state is still IPS_BUSY when [AbortFocuser]
    returns. *)
Lemma AbortFocuser_leaves_busy :
  exists w',
    AbortFocuser (world (answering []) abs_move_pending) = Some (true, w')
    /\ wire w' = [Blind FOCUSER MC_MOVE_POS [x00]]
    /\ s (FocusAbsPosNP (self w')) = IPS_BUSY
    /\ s (FocusAbsPosNP (self w')) <> IPS_IDLE.
Proof.
  eexists. split; [lazy; reflexivity|]. repeat split. discriminate.
Qed.

(** Claim C5 as written fails for amounts whose sum with the position
    leaves the range of [int32_t]: from 16777215 with the upper limit
    16777215, 2130706433 ticks outward make the sum 2^31, whose
    conversion has no defined result, while the absolute move to the
    clamped target sends a goto for 16777215. *)
Lemma MoveRelFocuser_sum_beyond_int32 :
  value (FocusAbsPosN (calibrated 0 16777215 16777215)) + 2130706433 = 2 ^ 31
  /\ MoveRelFocuser FOCUS_OUTWARD 2130706433
       (world (answering []) (calibrated 0 16777215 16777215)) = None
  /\ (exists w',
         MoveAbsFocuser (clamp (16777215 + 2130706433) 0 16777215)
           (world (answering []) (calibrated 0 16777215 16777215))
         = Some (IPS_BUSY, w')
         /\ goto_targets (wire w') = [16777215])
  /\ MoveRelFocuser FOCUS_OUTWARD 2130706433
       (world (answering []) (calibrated 0 16777215 16777215))
     <> MoveAbsFocuser (clamp (16777215 + 2130706433) 0 16777215)
          (world (answering []) (calibrated 0 16777215 16777215)).
Proof.
  split; [reflexivity|].
  split; [lazy; reflexivity|].
  split.
  - eexists. split; lazy; reflexivity.
  - lazy. discriminate.
Qed.

(** From 55000 with the upper limit 55000: 1000 inward is the absolute
    move to 54000, 1000 outward the absolute move to 55000. *)
Lemma MoveRelFocuser_is_clamped_MoveAbsFocuser_witness :
  MoveRelFocuser FOCUS_INWARD 1000 (world (answering []) at_55000)
  = MoveAbsFocuser 54000 (world (answering []) at_55000)
  /\ MoveRelFocuser FOCUS_OUTWARD 1000 (world (answering []) at_55000)
     = MoveAbsFocuser 55000 (world (answering []) at_55000).
Proof.
  destruct (MoveRelFocuser_is_clamped_MoveAbsFocuser
              (world (answering []) at_55000) 1000 eq_refl) as [Hin Hout].
  split; [exact (Hin eq_refl) | exact (Hout eq_refl)].
Defined.

Lemma isMoving_inverted_sense_witness :
  (exists w', isMoving (world (answering [Some [xff]]) rel_move_pending)
              = Some (false, w'))
  /\ (exists w', isMoving (world (answering [Some [x01]]) rel_move_pending)
                 = Some (true, w')).
Proof.
  split.
  - destruct (isMoving_inverted_sense (comm := Scripted_Communicator)
                (world (answering [Some [xff]]) rel_move_pending)
                (answering []) xff [] eq_refl)
      as (moving & w' & E & _ & Hff & _).
    exists w'. rewrite <- (Hff eq_refl). exact E.
  - destruct (isMoving_inverted_sense (comm := Scripted_Communicator)
                (world (answering [Some [x01]]) rel_move_pending)
                (answering []) x01 [] eq_refl)
      as (moving & w' & E & _ & _ & Hother).
    exists w'. rewrite <- (Hother ltac:(discriminate)). exact E.
Defined.

(** A dead link leaves the limits of a fresh driver (0 and 60000) in
    place, and the reply 00 00 01 F4 00 00 D6 D8 sets them to 500 and
    55000. *)
Lemma readLimits_outcomes_witness :
  (exists w',
      readLimits (world (answering [None]) fresh) = Some (false, w')
      /\ min (FocusAbsPosN (self w')) = 0
      /\ max (FocusAbsPosN (self w')) = 60000)
  /\ (exists w',
         readLimits
           (world (answering [Some [x00; x00; x01; xf4; x00; x00; xd6; xd8]])
                  fresh)
         = Some (true, w')
         /\ min (FocusAbsPosN (self w')) = 500
         /\ max (FocusAbsPosN (self w')) = 55000).
Proof.
  split.
  - destruct (proj1 (readLimits_outcomes (comm := Scripted_Communicator) (world (answering [None]) fresh)
                       (answering [])) eq_refl) as (w' & E & Hs & _).
    exists w'. rewrite Hs. repeat split. exact E.
  - destruct (proj2 (readLimits_outcomes (comm := Scripted_Communicator)
                       (world (answering
                                 [Some [x00; x00; x01; xf4; x00; x00; xd6; xd8]])
                              fresh)
                       (answering []))
                    x00 x00 x01 xf4 x00 x00 xd6 xd8 [] eq_refl)
      as (w' & E & Hmin & Hmax & _).
    exists w'. split; [exact E|]. split; [exact Hmin | exact Hmax].
Defined.

(** Claim C8 as written fails: a three-byte firmware reply is accepted
    and the handshake succeeds. *)
Lemma Ack_accepts_three_bytes :
  exists w1 w2,
    List.length [x01; x02; x03] = 3%nat
    /\ Ack (world (answering [Some [x01; x02; x03]]) fresh) = Some (true, w1)
    /\ Handshake (world (answering [Some [x01; x02; x03]]) fresh)
       = Some (true, w2).
Proof.
  eexists. eexists. split; [reflexivity|]. split; lazy; reflexivity.
Qed.

Lemma Ack_accepts_any_reply_length_witness :
  (exists w1,
      Ack (world (answering [Some [x07; x0f; x20; x62]]) fresh) = Some (true, w1)
      /\ host w1 = [LOG_INFO "Firmware Version %i.%i.%i" [7; 15; 8290]])
  /\ (exists w1,
         Ack (world (answering [Some [x07; x0f; x20; x62; x00]]) fresh)
         = Some (true, w1)
         /\ host w1 = [LOG_INFO "Firmware Version %i.%i" [7; 15]])
  /\ (exists w1, Ack (world (answering [None]) fresh) = Some (false, w1)).
Proof.
  split; [|split].
  - destruct (proj1 (Ack_accepts_any_reply_length (comm := Scripted_Communicator)
                       (world (answering [Some [x07; x0f; x20; x62]]) fresh)
                       (answering []))
                    x07 x0f [x20; x62] eq_refl) as (w1 & _ & E & _ & Hh).
    exists w1. split; [exact E | exact Hh].
  - destruct (proj1 (Ack_accepts_any_reply_length (comm := Scripted_Communicator)
                       (world (answering [Some [x07; x0f; x20; x62; x00]]) fresh)
                       (answering []))
                    x07 x0f [x20; x62; x00] eq_refl) as (w1 & _ & E & _ & Hh).
    exists w1. split; [exact E | exact Hh].
  - destruct (proj2 (Ack_accepts_any_reply_length (comm := Scripted_Communicator)
                       (world (answering [None]) fresh) (answering []))
                    eq_refl) as (w1 & _ & E & _).
    exists w1. exact E.
Defined.

(** The reply 00 75 30 is read as 30000; a failed query keeps the
    cached 55000. *)
Lemma readPosition_outcomes_witness :
  (exists w',
      readPosition (world (answering [Some [x00; x75; x30]]) at_55000)
      = Some (true, w')
      /\ value (FocusAbsPosN (self w')) = 30000)
  /\ (exists w',
         readPosition (world (answering [None]) at_55000) = Some (false, w')
         /\ value (FocusAbsPosN (self w')) = 55000).
Proof.
  split.
  - destruct (proj1 (readPosition_outcomes (comm := Scripted_Communicator)
                       (world (answering [Some [x00; x75; x30]]) at_55000)
                       (answering []))
                    x00 x75 x30 [] eq_refl) as (w' & E & Hv & _).
    exists w'. split; [exact E | exact Hv].
  - destruct (proj2 (readPosition_outcomes (comm := Scripted_Communicator)
                       (world (answering [None]) at_55000) (answering []))
                    eq_refl) as (w' & E & Hs).
    exists w'. split; [exact E | rewrite Hs; reflexivity].
Defined.

(** Claim C10 as written fails in its consequence: after an accepted
    request (here for the position the driver is at) the property state
    is still IPS_IDLE, not busy, so a poll tick would not run the
    completion check; and the startup reads, outside any poll tick,
    take a busy absolute-position property to IPS_OK and publish it. *)
Lemma MoveAbsFocuser_enters_no_state :
  (exists w',
      MoveAbsFocuser 0 (world (answering []) fresh) = Some (IPS_BUSY, w')
      /\ value (FocusAbsPosN fresh) = 0
      /\ s (FocusAbsPosNP (self w')) = IPS_IDLE
      /\ s (FocusAbsPosNP (self w')) <> IPS_BUSY
      /\ poll_busy (self w') = false)
  /\ (exists ok w',
         getStartupParameters
           (world (answering [Some [x00; x75; x30]; None]) abs_move_pending)
         = Some (ok, w')
         /\ s (FocusAbsPosNP abs_move_pending) = IPS_BUSY
         /\ s (FocusAbsPosNP (self w')) = IPS_OK
         /\ host w' = [LOG_DEBUG "readPosition %i" [30000];
                       IDSetNumber FOCUS_ABS_POS]).
Proof.
  split.
  - eexists. split; [lazy; reflexivity|].
    repeat split. discriminate.
  - eexists. eexists. split; [lazy; reflexivity|]. repeat split.
Qed.

(** A request for the position the driver is already at is pending
    like any other. *)
Example MoveAbsFocuser_to_current_position :
  value (FocusAbsPosN at_30000) = 30000
  /\ exists w', MoveAbsFocuser 30000 (world (answering []) at_30000)
                = Some (IPS_BUSY, w').
Proof. split; [reflexivity|]. eexists. lazy. reflexivity. Qed.

(** With the limits never read, a relative move still clamps, at the
    default maximum 60000. *)
Example MoveRelFocuser_uncalibrated :
  exists w1 st w2,
    readLimits (world (answering [None]) fresh) = Some (false, w1)
    /\ MoveRelFocuser FOCUS_OUTWARD 70000 w1 = Some (st, w2)
    /\ goto_targets (wire w2) = [60000].
Proof.
  eexists. eexists. eexists.
  split; [lazy; reflexivity|]. split; lazy; reflexivity.
Qed.

(** * Further properties of the driver *)

Lemma in_int32_wrap (z : Z) : in_int32 (wrap_int32 z) = true.
Proof.
  unfold in_int32, wrap_int32.
  pose proof (Z.mod_pos_bound (z + 2 ^ 31) (2 ^ 32) ltac:(lia)).
  apply andb_true_intro. split; apply Z.leb_le; lia.
Qed.

Lemma in_int32_bounds (z : Z) :
  in_int32 z = true <-> - 2 ^ 31 <= z <= 2 ^ 31 - 1.
Proof.
  unfold in_int32. rewrite andb_true_iff, !Z.leb_le. reflexivity.
Qed.

Section Cases.

Context {Dev : Type} {comm : Communicator Dev}.
Implicit Types (w : World Dev) (l : Dev).

(** What a position read can have done. *)
Lemma readPosition_cases w rc w1 :
  readPosition w = Some (rc, w1) ->
  exists l,
    (rc = false /\ w1 = sent w l (Query FOCUSER MC_GET_POSITION))
    \/ (exists b0 b1 b2,
           rc = true
           /\ w1 = set_self (position_stored (be_value [b0; b1; b2]))
                     (told (sent w l (Query FOCUSER MC_GET_POSITION))
                        (LOG_DEBUG "readPosition %i" [be_value [b0; b1; b2]]))).
Proof.
  destruct (sendCommand (link w) FOCUSER MC_GET_POSITION) as [l [reply|]] eqn:E.
  - destruct reply as [|b0 [|b1 [|b2 rest]]];
      try (rewrite (readPosition_short w l _ E) by (cbn; lia); discriminate).
    rewrite (readPosition_ok w l b0 b1 b2 rest E).
    intros [= <- <-]. exists l. right. exists b0, b1, b2. split; reflexivity.
  - rewrite (readPosition_fail w l E). intros [= <- <-].
    exists l. left. split; reflexivity.
Qed.

(** What a limits read can have done. *)
Lemma readLimits_cases w rc w1 :
  readLimits w = Some (rc, w1) ->
  exists l,
    (rc = false /\ w1 = sent w l (Query FOCUSER FOC_GET_HS_POSITIONS))
    \/ (exists lo hi,
           rc = true
           /\ in_int32 lo = true /\ in_int32 hi = true
           /\ w1 = told (set_self (limits_stored lo hi)
                           (sent w l (Query FOCUSER FOC_GET_HS_POSITIONS)))
                     (LOG_INFO "read limits hi %i lo %i" [hi; lo])).
Proof.
  destruct (sendCommand (link w) FOCUSER FOC_GET_HS_POSITIONS)
    as [l [reply|]] eqn:E.
  - destruct (Nat.ltb (List.length reply) 8) eqn:Hlen.
    + apply Nat.ltb_lt in Hlen.
      rewrite (readLimits_short w l reply E Hlen). discriminate.
    + apply Nat.ltb_ge in Hlen.
      do 8 (destruct reply as [|? reply]; [cbn in Hlen; lia|]).
      rewrite (readLimits_ok w l _ _ _ _ _ _ _ _ reply E). cbv zeta.
      intros [= <- <-]. exists l. right.
      eexists. eexists. split; [reflexivity|].
      split; [apply in_int32_wrap|]. split; [apply in_int32_wrap|].
      reflexivity.
  - rewrite (readLimits_fail w l E). intros [= <- <-].
    exists l. left. split; reflexivity.
Qed.

(** [Ack] sends its one query, writes at most a log line and leaves the
    driver object alone. *)
Lemma Ack_frame w ok w1 :
  Ack w = Some (ok, w1) ->
  wire w1 = wire w ++ [Query FOCUSER GET_VER]
  /\ self w1 = self w
  /\ exists evs, host w1 = host w ++ evs /\ (List.length evs <= 1)%nat.
Proof.
  destruct (sendCommand (link w) FOCUSER GET_VER) as [l [reply|]] eqn:E.
  - destruct reply as [|b0 [|b1 rest]].
    + unfold Ack. run_with E. discriminate.
    + unfold Ack. run_with E. discriminate.
    + assert (HA : exists e, Ack w = Some (true,
                     told (sent w l (Query FOCUSER GET_VER)) e)).
      { destruct rest as [|b2 [|b3 [|b4 rest]]].
        - rewrite (Ack_version2 w l b0 b1 [] E) by (cbn; congruence).
          eexists; reflexivity.
        - rewrite (Ack_version2 w l b0 b1 [b2] E) by (cbn; congruence).
          eexists; reflexivity.
        - rewrite (Ack_version4 w l b0 b1 b2 b3 E). eexists; reflexivity.
        - rewrite (Ack_version2 w l b0 b1 (b2 :: b3 :: b4 :: rest) E)
            by (cbn; congruence).
          eexists; reflexivity. }
      destruct HA as (e & HA). rewrite HA. intros [= <- <-].
      cbn. repeat split. exists [e]. split; [reflexivity | cbn; lia].
  - rewrite (Ack_fail w l E). intros [= <- <-].
    cbn. repeat split. exists []. split; [symmetry; apply app_nil_r | cbn; lia].
Qed.

Lemma Handshake_cases w ok w2 :
  Handshake w = Some (ok, w2) ->
  exists w1 e, Ack w = Some (ok, w1) /\ w2 = told w1 e.
Proof.
  unfold Handshake. cbv [bind].
  destruct (Ack w) as [[[|] w1]|]; cbv [emit ret]; [| |discriminate];
    intros [= <- <-]; eexists; eexists; split; reflexivity.
Qed.

Lemma getStartupParameters_cases w ok w' :
  getStartupParameters w = Some (ok, w') ->
  exists rc1 w1 rc2 w2,
    readPosition w = Some (rc1, w1)
    /\ readLimits (if rc1 then told w1 (IDSetNumber FOCUS_ABS_POS) else w1)
       = Some (rc2, w2)
    /\ ok = rc1 && rc2
    /\ w' = if rc2
            then told (told (told w2 (IUUpdateMinMax FOCUS_ABS_POS))
                          (IDSetNumber FOCUS_MAX)) (IDSetNumber FOCUS_MIN)
            else w2.
Proof.
  unfold getStartupParameters. cbv [bind].
  destruct (readPosition w) as [[rc1 w1]|]; [|discriminate].
  assert (E1 : (if rc1 then emit (IDSetNumber FOCUS_ABS_POS) else ret tt) w1
               = Some (tt, if rc1 then told w1 (IDSetNumber FOCUS_ABS_POS)
                           else w1))
    by (destruct rc1; reflexivity).
  rewrite E1.
  destruct (readLimits _) as [[rc2 w2]|] eqn:E2; [|discriminate].
  intros E. exists rc1, w1, rc2, w2.
  split; [reflexivity|]. split; [exact E2|].
  destruct rc2; cbv [emit ret told] in E |- *; injection E as <- <-;
    split; reflexivity.
Qed.

End Cases.

(** ** The numbers stay in step *)

Lemma in_step_position_stored (p : Z) (d : CelestronSCT) :
  0 <= p < 2 ^ 24 -> in_step d -> in_step (position_stored p d).
Proof.
  intros Hp (_ & Hmin & Hmax & Hlo & Hhi).
  unfold in_step. cbn. auto.
Qed.

Lemma in_step_limits_stored (lo hi : Z) (d : CelestronSCT) :
  in_int32 lo = true -> in_int32 hi = true ->
  in_step d -> in_step (limits_stored lo hi d).
Proof.
  intros Hlo Hhi (Hv & _). unfold in_step. cbn. auto.
Qed.

Lemma in_step_reached (d : CelestronSCT) :
  in_step d ->
  in_step (upd_FocusRelPosNP (with_s IPS_OK)
             (upd_FocusAbsPosNP (with_s IPS_OK) d)).
Proof. intros Hd. exact Hd. Qed.

Lemma initProperties_in_step (base : CelestronSCT) :
  in_step (initProperties base).
Proof. unfold in_step. cbn. repeat split; lia. Qed.

Section Steps.

Context {Dev : Type} {comm : Communicator Dev}.
Implicit Types (w : World Dev) (l : Dev).

Lemma readPosition_in_step w rc w1 :
  readPosition w = Some (rc, w1) -> in_step (self w) -> in_step (self w1).
Proof.
  intros E Hd.
  destruct (readPosition_cases w rc w1 E)
    as (l & [(_ & ->) | (b0 & b1 & b2 & _ & ->)]).
  - exact Hd.
  - apply in_step_position_stored; [apply be_value_3_range | exact Hd].
Qed.

Lemma readLimits_in_step w rc w1 :
  readLimits w = Some (rc, w1) -> in_step (self w) -> in_step (self w1).
Proof.
  intros E Hd.
  destruct (readLimits_cases w rc w1 E)
    as (l & [(_ & ->) | (lo & hi & _ & Hlo & Hhi & ->)]).
  - exact Hd.
  - apply in_step_limits_stored; assumption.
Qed.

(** The driver object a poll tick leaves: untouched, or as the position
    read left it, or that with both move properties set to IPS_OK. *)
Lemma TimerHit_self w u w' :
  TimerHit w = Some (u, w') ->
  self w' = self w
  \/ exists rc w1,
       readPosition w = Some (rc, w1)
       /\ (self w' = self w1
           \/ self w' = upd_FocusRelPosNP (with_s IPS_OK)
                          (upd_FocusAbsPosNP (with_s IPS_OK) (self w1))).
Proof.
  destruct (isConnected (self w)) eqn:Hc.
  - destruct (readPosition w) as [[rc w1]|] eqn:Hr.
    + rewrite (TimerHit_connected w rc w1 Hc Hr). cbv zeta.
      match goal with
      | |- context [if ?c then told w1 ?e else w1] =>
          set (w2 := if c then told w1 e else w1)
      end.
      assert (Hs : self w2 = self w1)
        by (subst w2; destruct (_ && _); reflexivity).
      intros E. right. exists rc, w1. split; [reflexivity|].
      destruct (poll_busy (self w2)).
      * destruct (isMoving w2) as [[moving w3]|] eqn:Hm; [|discriminate].
        destruct (isMoving_frame w2 moving w3 Hm) as (_ & _ & Hs3).
        injection E as <- <-.
        destruct moving; cbv [negb reached told set_self]; cbn [self];
          rewrite Hs3, Hs; auto.
      * injection E as <- <-. left. cbn. exact Hs.
    + rewrite (TimerHit_position_undefined w Hc Hr). discriminate.
  - rewrite (TimerHit_disconnected w Hc). intros [= <- <-]. left. reflexivity.
Qed.

Lemma exec_in_step (c : Call) w u w' :
  exec c w = Some (u, w') -> in_step (self w) -> in_step (self w').
Proof.
  destruct c; cbn [exec]; cbv [bind ret].
  - destruct (Ack w) as [[ok w1]|] eqn:E; [|discriminate].
    intros [= <- <-] Hd.
    destruct (Ack_frame w ok w1 E) as (_ & -> & _). exact Hd.
  - destruct (Handshake w) as [[ok w2]|] eqn:E; [|discriminate].
    intros [= <- <-] Hd.
    destruct (Handshake_cases w ok w2 E) as (w1 & e & EA & ->).
    destruct (Ack_frame w ok w1 EA) as (_ & Hs & _).
    cbn. rewrite Hs. exact Hd.
  - destruct (readPosition w) as [[rc w1]|] eqn:E; [|discriminate].
    intros [= <- <-]. exact (readPosition_in_step w rc w1 E).
  - destruct (isMoving w) as [[m w1]|] eqn:E; [|discriminate].
    intros [= <- <-] Hd.
    destruct (isMoving_frame w m w1 E) as (_ & _ & ->). exact Hd.
  - destruct (readLimits w) as [[rc w1]|] eqn:E; [|discriminate].
    intros [= <- <-]. exact (readLimits_in_step w rc w1 E).
  - destruct (getStartupParameters w) as [[ok w1]|] eqn:E; [|discriminate].
    intros [= <- <-] Hd.
    destruct (getStartupParameters_cases w ok w1 E)
      as (rc1 & v1 & rc2 & v2 & E1 & E2 & _ & ->).
    pose proof (readPosition_in_step w rc1 v1 E1 Hd) as H1.
    assert (H2 : in_step (self v2)).
    { apply (readLimits_in_step _ rc2 v2 E2). destruct rc1; exact H1. }
    destruct rc2; exact H2.
  - destruct (MoveAbsFocuser_total w targetTicks) as (st & w1 & E & _ & _ & Hs).
    rewrite E. intros [= <- <-] Hd. rewrite Hs. exact Hd.
  - destruct (MoveRelFocuser dir ticks w) as [[st w1]|] eqn:E; [|discriminate].
    intros [= <- <-] Hd.
    destruct (MoveRelFocuser_defined w dir ticks st w1 E) as [Hp Hm].
    rewrite (MoveRelFocuser_eq w dir ticks Hp Hm) in E.
    destruct (MoveAbsFocuser_total w
                (clamp (rel_target dir (value (FocusAbsPosN (self w))) ticks) 0
                       (max (FocusAbsPosN (self w)))))
      as (st0 & w0 & E0 & _ & _ & Hs).
    assert (w1 = w0) by congruence. subst w1. rewrite Hs. exact Hd.
  - intros E Hd.
    destruct (TimerHit_self w u w' E) as [-> | (rc & w1 & Er & [-> | ->])].
    + exact Hd.
    + exact (readPosition_in_step w rc w1 Er Hd).
    + apply in_step_reached. exact (readPosition_in_step w rc w1 Er Hd).
  - rewrite AbortFocuser_eq. cbv zeta. intros [= <- <-] Hd. exact Hd.
Qed.

End Steps.

(** ** Operations and the backlash setting *)

Section Backlash.

Context {Dev : Type} {comm : Communicator Dev}.
Implicit Types (w : World Dev) (l : Dev).

Variable f : INumberVectorProperty -> INumberVectorProperty.

Lemma readPosition_with_backlash w :
  readPosition (with_backlash f w)
  = carried (with_backlash f) (readPosition w).
Proof.
  destruct (sendCommand (link w) FOCUSER MC_GET_POSITION) as [l [reply|]] eqn:E.
  - destruct reply as [|b0 [|b1 [|b2 rest]]];
      unfold readPosition; cbv [bind send];
      change (link (with_backlash f w)) with (link w);
      rewrite E; reflexivity.
  - unfold readPosition; cbv [bind send];
      change (link (with_backlash f w)) with (link w);
      rewrite E; reflexivity.
Qed.

Lemma isMoving_with_backlash w :
  isMoving (with_backlash f w) = carried (with_backlash f) (isMoving w).
Proof.
  destruct (sendCommand (link w) FOCUSER MC_SLEW_DONE) as [l [reply|]] eqn:E.
  - destruct reply as [|b rest];
      unfold isMoving; cbv [bind send];
      change (link (with_backlash f w)) with (link w);
      rewrite E; reflexivity.
  - unfold isMoving; cbv [bind send];
      change (link (with_backlash f w)) with (link w);
      rewrite E; reflexivity.
Qed.

Lemma MoveAbsFocuser_with_backlash w t :
  MoveAbsFocuser t (with_backlash f w)
  = carried (with_backlash f) (MoveAbsFocuser t w).
Proof.
  rewrite !MoveAbsFocuser_eq. reflexivity.
Qed.

Lemma TimerHit_with_backlash w :
  TimerHit (with_backlash f w) = carried (with_backlash f) (TimerHit w).
Proof.
  destruct (isConnected (self w)) eqn:Hc.
  - assert (Hc' : isConnected (self (with_backlash f w)) = true) by exact Hc.
    destruct (readPosition w) as [[rc w1]|] eqn:Hr.
    + assert (Hr' : readPosition (with_backlash f w)
                    = Some (rc, with_backlash f w1))
        by (rewrite readPosition_with_backlash, Hr; reflexivity).
      rewrite (TimerHit_connected _ rc _ Hc' Hr').
      rewrite (TimerHit_connected w rc w1 Hc Hr). cbv zeta.
      change (value (FocusAbsPosN (self (with_backlash f w))))
        with (value (FocusAbsPosN (self w))).
      change (value (FocusAbsPosN (self (with_backlash f w1))))
        with (value (FocusAbsPosN (self w1))).
      match goal with
      | |- context [if ?c then told w1 ?e else w1] =>
          set (c0 := c); set (w2 := if c0 then told w1 e else w1)
      end.
      assert (H2 : (if c0 then told (with_backlash f w1)
                                (IDSetNumber FOCUS_ABS_POS)
                    else with_backlash f w1) = with_backlash f w2)
        by (subst w2; destruct c0; reflexivity).
      rewrite H2.
      change (poll_busy (self (with_backlash f w2)))
        with (poll_busy (self w2)).
      destruct (poll_busy (self w2)); [|reflexivity].
      rewrite isMoving_with_backlash.
      destruct (isMoving w2) as [[[|] w3]|]; reflexivity.
    + assert (Hr' : readPosition (with_backlash f w) = None)
        by (rewrite readPosition_with_backlash, Hr; reflexivity).
      rewrite (TimerHit_position_undefined _ Hc' Hr').
      rewrite (TimerHit_position_undefined w Hc Hr). reflexivity.
  - assert (Hc' : isConnected (self (with_backlash f w)) = false) by exact Hc.
    rewrite (TimerHit_disconnected _ Hc'), (TimerHit_disconnected w Hc).
    reflexivity.
Qed.

Lemma MoveRelFocuser_with_backlash w dir n :
  MoveRelFocuser dir n (with_backlash f w)
  = carried (with_backlash f) (MoveRelFocuser dir n w).
Proof.
  unfold MoveRelFocuser. cbv [bind get].
  change (self (with_backlash f w)) with (upd_BacklashNP f (self w)).
  change (FocusAbsPosN (upd_BacklashNP f (self w)))
    with (FocusAbsPosN (self w)).
  destruct (lift (double_to_int32 _) w) as [[p w0]|] eqn:E1.
  - assert (w0 = w).
    { unfold lift in E1. destruct (double_to_int32 _); [|discriminate].
      cbv [ret] in E1. congruence. }
    subst w0.
    assert (E1' : forall v : World Dev,
               lift (double_to_int32
                       match dir with
                       | FOCUS_INWARD => value (FocusAbsPosN (self w)) - n
                       | FOCUS_OUTWARD => value (FocusAbsPosN (self w)) + n
                       end) v = Some (p, v)).
    { intros v. unfold lift in E1 |- *.
      destruct (double_to_int32 _); [|discriminate].
      cbv [ret] in E1 |- *. congruence. }
    rewrite E1'.
    unfold lift. destruct (double_to_int32 (max _)); cbv [ret undefined].
    + apply MoveAbsFocuser_with_backlash.
    + reflexivity.
  - assert (E1' : forall v : World Dev,
               lift (double_to_int32
                       match dir with
                       | FOCUS_INWARD => value (FocusAbsPosN (self w)) - n
                       | FOCUS_OUTWARD => value (FocusAbsPosN (self w)) + n
                       end) v = None).
    { intros v. unfold lift in E1 |- *.
      destruct (double_to_int32 _); [discriminate | reflexivity]. }
    rewrite E1'. reflexivity.
Qed.

End Backlash.

(** ** What a call puts on the wire *)

Section Wire.

Context {Dev : Type} {comm : Communicator Dev}.
Implicit Types (w : World Dev) (l : Dev).

Lemma readLimits_wire w rc w1 :
  readLimits w = Some (rc, w1) ->
  wire w1 = wire w ++ [Query FOCUSER FOC_GET_HS_POSITIONS].
Proof.
  intros E.
  destruct (readLimits_cases w rc w1 E)
    as (l & [(_ & ->) | (lo & hi & _ & _ & _ & ->)]); reflexivity.
Qed.

Lemma getStartupParameters_wire w ok w' :
  getStartupParameters w = Some (ok, w') ->
  wire w' = wire w ++ [Query FOCUSER MC_GET_POSITION;
                       Query FOCUSER FOC_GET_HS_POSITIONS].
Proof.
  intros E.
  destruct (getStartupParameters_cases w ok w' E)
    as (rc1 & w1 & rc2 & w2 & E1 & E2 & _ & ->).
  destruct (readPosition_frame w rc1 w1 E1) as (Hw1 & _).
  pose proof (readLimits_wire _ rc2 w2 E2) as Hw2.
  assert (Hw : wire w2 = wire w ++ [Query FOCUSER MC_GET_POSITION;
                                    Query FOCUSER FOC_GET_HS_POSITIONS]).
  { rewrite Hw2. destruct rc1; cbn [wire told]; rewrite Hw1, <- app_assoc;
      reflexivity. }
  destruct rc2; exact Hw.
Qed.

Lemma exec_wire (c : Call) w u w' :
  exec c w = Some (u, w') ->
  exists rs,
    wire w' = wire w ++ rs
    /\ List.length (goto_targets rs) = (if is_move c then 1 else 0)%nat.
Proof.
  destruct c; cbn [exec is_move]; cbv [bind ret].
  - destruct (Ack w) as [[ok w1]|] eqn:E; [|discriminate].
    intros [= <- <-]. destruct (Ack_frame w ok w1 E) as (Hw & _).
    eexists. split; [exact Hw | reflexivity].
  - destruct (Handshake w) as [[ok w2]|] eqn:E; [|discriminate].
    intros [= <- <-].
    destruct (Handshake_cases w ok w2 E) as (w1 & e & EA & ->).
    destruct (Ack_frame w ok w1 EA) as (Hw & _).
    eexists. split; [exact Hw | reflexivity].
  - destruct (readPosition w) as [[rc w1]|] eqn:E; [|discriminate].
    intros [= <- <-]. destruct (readPosition_frame w rc w1 E) as (Hw & _).
    eexists. split; [exact Hw | reflexivity].
  - destruct (isMoving w) as [[m w1]|] eqn:E; [|discriminate].
    intros [= <- <-]. destruct (isMoving_frame w m w1 E) as (Hw & _).
    eexists. split; [exact Hw | reflexivity].
  - destruct (readLimits w) as [[rc w1]|] eqn:E; [|discriminate].
    intros [= <- <-].
    eexists. split; [exact (readLimits_wire w rc w1 E) | reflexivity].
  - destruct (getStartupParameters w) as [[ok w1]|] eqn:E; [|discriminate].
    intros [= <- <-].
    eexists. split; [exact (getStartupParameters_wire w ok w1 E) | reflexivity].
  - destruct (MoveAbsFocuser_total w targetTicks) as (st & w1 & E & _ & Hw & _).
    rewrite E. intros [= <- <-].
    eexists. split; [exact Hw | reflexivity].
  - destruct (MoveRelFocuser dir ticks w) as [[st w1]|] eqn:E; [|discriminate].
    intros [= <- <-].
    destruct (MoveRelFocuser_defined w dir ticks st w1 E) as [Hp Hm].
    rewrite (MoveRelFocuser_eq w dir ticks Hp Hm) in E.
    destruct (MoveAbsFocuser_total w
                (clamp (rel_target dir (value (FocusAbsPosN (self w))) ticks) 0
                       (max (FocusAbsPosN (self w)))))
      as (st0 & w0 & E0 & _ & Hw & _).
    assert (w1 = w0) by congruence. subst w1.
    eexists. split; [exact Hw | reflexivity].
  - intros E. destruct (TimerHit_wire w u w' E) as (qs & Hw & Hq & _).
    exists qs. split; [exact Hw|].
    rewrite (goto_targets_queries qs Hq). reflexivity.
  - rewrite AbortFocuser_eq. cbv zeta. intros [= <- <-].
    eexists. split; reflexivity.
Qed.

End Wire.

Lemma Steady_well_sized : well_sized (Dev := Steady).
Proof.
  intros l l' reply. split; cbn.
  - destruct (position_answer l) as [[[b0 b1] b2]|]; intros [= <- <-]; cbn; lia.
  - destruct (status_answer l) as [b|]; intros [= <- <-]; cbn; lia.
Qed.

(** ** Properties of sessions, moves and poll ticks *)

Section Further.

Context {Dev : Type} {comm : Communicator Dev}.
Implicit Types (w : World Dev) (l : Dev).

(** Property X1.  The numbers of the driver stay in step: they are in
    step after [initProperties], and no sequence of driver calls, in any
    order and with any channel outcomes, takes a driver whose numbers
    are in step to one whose numbers are not. *)
Theorem session_keeps_numbers_in_step :
  (forall base, in_step (initProperties base))
  /\ (forall cs w u w',
         in_step (self w) ->
         session cs w = Some (u, w') ->
         in_step (self w')).
Proof.
  split; [exact initProperties_in_step|].
  induction cs as [|c cs IH]; intros w u w' Hd.
  - cbn. cbv [ret]. intros [= <- <-]. exact Hd.
  - cbn [session]. cbv [bind].
    destruct (exec c w) as [[v w1]|] eqn:E; [|discriminate].
    intros Es. apply (IH w1 u w'); [|exact Es].
    exact (exec_in_step c w v w1 E Hd).
Qed.


(** Property X3.  When the upper limit is a 24-bit quantity, the target
    a relative move sends lies between 0 and that limit, and it is the
    exact sum or difference whenever that already lies there; the lower
    limit plays no part. *)
Theorem MoveRelFocuser_target_within_limit w dir n :
  let p := value (FocusAbsPosN (self w)) in
  let hi := max (FocusAbsPosN (self w)) in
  in_int32 (rel_target dir p n) = true ->
  0 <= hi < 2 ^ 24 ->
  exists st w' t,
    MoveRelFocuser dir n w = Some (st, w')
    /\ goto_targets (wire w') = goto_targets (wire w) ++ [t]
    /\ 0 <= t <= hi
    /\ (0 <= rel_target dir p n <= hi -> t = rel_target dir p n)
    /\ (rel_target dir p n < 0 -> t = 0)
    /\ (hi < rel_target dir p n -> t = hi).
Proof.
  intros p hi Hp Hhi.
  assert (Hm : in_int32 hi = true) by (apply in_int32_bounds; lia).
  rewrite (MoveRelFocuser_eq w dir n Hp Hm). fold p hi.
  destruct (MoveAbsFocuser_total w (clamp (rel_target dir p n) 0 hi))
    as (st & w' & E & _ & Hw & _).
  exists st, w', (clamp (rel_target dir p n) 0 hi).
  split; [exact E|]. split.
  - rewrite Hw, goto_targets_app. f_equal.
    unfold goto_targets. cbn [flat_map app].
    rewrite be_value_goto_payload.
    rewrite Z.mod_small; [reflexivity|]. unfold clamp. lia.
  - unfold clamp. repeat split; lia.
Qed.

(** Property X4.  Encoding and decoding agree: the three bytes
    [MoveAbsFocuser] sends for a 24-bit target are read back by
    [readPosition] as that target. *)
Theorem goto_payload_read_back w l t rest :
  0 <= t < 2 ^ 24 ->
  sendCommand (link w) FOCUSER MC_GET_POSITION
    = (l, Some (goto_payload t ++ rest)) ->
  exists w',
    readPosition w = Some (true, w')
    /\ value (FocusAbsPosN (self w')) = t.
Proof.
  intros Ht E. unfold goto_payload in E. cbn [app] in E.
  rewrite (readPosition_ok w l _ _ _ rest E).
  eexists. split; [reflexivity|].
  cbn [self set_self told sent FocusAbsPosN upd_FocusAbsPosNP
       FocusAbsPosNP with_s on_np np with_value value].
  change (be_value (goto_payload t) = t).
  rewrite be_value_goto_payload. apply Z.mod_small. exact Ht.
Qed.

(** Property X5.  The backlash setting has no effect on motion: with the
    backlash property rewritten in any way, a relative move, an absolute
    move and a poll tick give the same result, the same traffic on the
    wire and the same messages to the host, and leave the rewritten
    backlash in place. *)
Theorem backlash_is_ignored (f : INumberVectorProperty -> INumberVectorProperty) w :
  (forall dir n,
      MoveRelFocuser dir n (with_backlash f w)
      = carried (with_backlash f) (MoveRelFocuser dir n w))
  /\ (forall t,
         MoveAbsFocuser t (with_backlash f w)
         = carried (with_backlash f) (MoveAbsFocuser t w))
  /\ TimerHit (with_backlash f w) = carried (with_backlash f) (TimerHit w).
Proof.
  split; [|split].
  - intros dir n. apply MoveRelFocuser_with_backlash.
  - intros t. apply MoveAbsFocuser_with_backlash.
  - apply TimerHit_with_backlash.
Qed.

Lemma TimerHit_host w u w' :
  TimerHit w = Some (u, w') ->
  exists evs,
    host w' = host w ++ evs ++ [SetTimer]
    /\ ~ In SetTimer evs
    /\ isConnected (self w') = isConnected (self w).
Proof.
  destruct (isConnected (self w)) eqn:Hc.
  - destruct (readPosition w) as [[rc w1]|] eqn:Hr.
    2: { rewrite (TimerHit_position_undefined w Hc Hr). discriminate. }
    rewrite (TimerHit_connected w rc w1 Hc Hr). cbv zeta.
    assert (H1 : exists e1, host w1 = host w ++ e1 /\ ~ In SetTimer e1
                            /\ isConnected (self w1) = true).
    { destruct (readPosition_cases w rc w1 Hr)
        as (l & [(_ & ->) | (b0 & b1 & b2 & _ & ->)]).
      - exists []. cbn. rewrite app_nil_r. auto.
      - eexists [_]. cbn. repeat split; [|exact Hc].
        intros [F|[]]. discriminate. }
    destruct H1 as (e1 & Hh1 & Hn1 & Hc1).
    match goal with
    | |- context [if ?c then told w1 ?e else w1] =>
        set (w2 := if c then told w1 e else w1)
    end.
    assert (H2 : exists e2, host w2 = host w ++ e2 /\ ~ In SetTimer e2
                            /\ isConnected (self w2) = true).
    { subst w2. destruct (_ && _).
      - exists (e1 ++ [IDSetNumber FOCUS_ABS_POS]). cbn.
        rewrite Hh1, <- app_assoc. repeat split; [|exact Hc1].
        rewrite in_app_iff. intros [F|[F|[]]]; [auto | discriminate].
      - exists e1. auto. }
    destruct H2 as (e2 & Hh2 & Hn2 & Hc2).
    destruct (poll_busy (self w2)).
    + destruct (isMoving w2) as [[moving w3]|] eqn:Hm; [|discriminate].
      destruct (isMoving_frame w2 moving w3 Hm) as (_ & Hh3 & Hs3).
      intros [= <- <-]. destruct moving; cbv [negb reached told set_self];
        cbn [host self isConnected upd_FocusRelPosNP upd_FocusAbsPosNP];
        rewrite Hh3, Hh2, Hs3, Hc2.
      * exists e2. rewrite <- app_assoc. auto.
      * exists (e2 ++ [IDSetNumber FOCUS_ABS_POS; IDSetNumber FOCUS_REL_POS;
                       LOG_INFO "Focuser reached requested position." []]).
        rewrite <- !app_assoc. repeat split.
        rewrite in_app_iff. intros [F|F]; [auto|].
        cbn in F. intuition discriminate.
    + intros [= <- <-]. exists e2. cbn. rewrite Hh2, <- app_assoc. auto.
  - rewrite (TimerHit_disconnected w Hc). intros [= <- <-].
    exists []. cbn. auto.
Qed.

(** Property X6.  On a link whose replies have the length the poll
    expects, every poll tick returns, whatever the state and whatever
    fails, and it re-arms the timer exactly once, as the last thing it
    tells the host; it never changes the connection flag. *)
Theorem TimerHit_rearms_once w :
  well_sized ->
  exists w' evs,
    TimerHit w = Some (tt, w')
    /\ host w' = host w ++ evs ++ [SetTimer]
    /\ ~ In SetTimer evs
    /\ isConnected (self w') = isConnected (self w).
Proof.
  intros Hsz. destruct (TimerHit_total w Hsz) as (w' & E).
  destruct (TimerHit_host w tt w' E) as (evs & Hh & Hn & Hc).
  exists w', evs. auto.
Qed.

(** A poll tick on a connected driver with no relative move in flight
    and an answered position query. *)
Lemma TimerHit_refresh w l b0 b1 b2 rest :
  isConnected (self w) = true ->
  IPState_eqb (s (FocusRelPosNP (self w))) IPS_BUSY = false ->
  sendCommand (link w) FOCUSER MC_GET_POSITION
    = (l, Some (b0 :: b1 :: b2 :: rest)) ->
  let p := be_value [b0; b1; b2] in
  let w1 := set_self (position_stored p)
              (told (sent w l (Query FOCUSER MC_GET_POSITION))
                    (LOG_DEBUG "readPosition %i" [p])) in
  TimerHit w
  = Some (tt, told (if 1 <? Z.abs (value (FocusAbsPosN (self w)) - p)
                    then told w1 (IDSetNumber FOCUS_ABS_POS) else w1)
                   SetTimer).
Proof.
  intros Hc Hrel E p w1.
  rewrite (TimerHit_connected w true w1 Hc (readPosition_ok w l b0 b1 b2 rest E)).
  cbv zeta. cbn [andb].
  change (value (FocusAbsPosN (self w1))) with p.
  assert (Hb : forall v : World Dev, self v = self w1 ->
                                     poll_busy (self v) = false).
  { intros v ->. unfold poll_busy. cbn. exact Hrel. }
  destruct (1 <? Z.abs (value (FocusAbsPosN (self w)) - p)).
  - rewrite (Hb (told w1 (IDSetNumber FOCUS_ABS_POS)) eq_refl). reflexivity.
  - rewrite (Hb w1 eq_refl). reflexivity.
Qed.

(** Property X7.  The position refresh of a poll tick is debounced: with
    no relative move in flight and the position query answered, the
    tick logs the position read, publishes the absolute position only
    when it differs from the cached one by more than one tick, and
    re-arms the timer; it tells the host nothing else. *)
Theorem TimerHit_publishes_only_real_changes w l b0 b1 b2 rest :
  isConnected (self w) = true ->
  IPState_eqb (s (FocusRelPosNP (self w))) IPS_BUSY = false ->
  sendCommand (link w) FOCUSER MC_GET_POSITION
    = (l, Some (b0 :: b1 :: b2 :: rest)) ->
  let p := be_value [b0; b1; b2] in
  exists w',
    TimerHit w = Some (tt, w')
    /\ value (FocusAbsPosN (self w')) = p
    /\ host w' = host w
                 ++ [LOG_DEBUG "readPosition %i" [p]]
                 ++ (if 1 <? Z.abs (value (FocusAbsPosN (self w)) - p)
                     then [IDSetNumber FOCUS_ABS_POS] else [])
                 ++ [SetTimer].
Proof.
  intros Hc Hrel E p.
  rewrite (TimerHit_refresh w l b0 b1 b2 rest Hc Hrel E). cbv zeta. fold p.
  eexists. split; [reflexivity|].
  destruct (1 <? Z.abs (value (FocusAbsPosN (self w)) - p)); cbn;
    rewrite <- ?app_assoc; split; reflexivity.
Qed.

(** Property X8.  An answered position query alone ends an absolute
    move: with no relative move in flight, the poll tick leaves the
    absolute position property IPS_OK whatever its state was (busy
    included), without sending the status query and without reporting
    the position as reached. *)
Theorem TimerHit_position_read_ends_absolute_move w l b0 b1 b2 rest :
  isConnected (self w) = true ->
  IPState_eqb (s (FocusRelPosNP (self w))) IPS_BUSY = false ->
  sendCommand (link w) FOCUSER MC_GET_POSITION
    = (l, Some (b0 :: b1 :: b2 :: rest)) ->
  exists w',
    TimerHit w = Some (tt, w')
    /\ s (FocusAbsPosNP (self w')) = IPS_OK
    /\ FocusRelPosNP (self w') = FocusRelPosNP (self w)
    /\ wire w' = wire w ++ [Query FOCUSER MC_GET_POSITION]
    /\ ~ In (LOG_INFO "Focuser reached requested position." []) 
            (skipn (List.length (host w)) (host w')).
Proof.
  intros Hc Hrel E.
  rewrite (TimerHit_refresh w l b0 b1 b2 rest Hc Hrel E). cbv zeta.
  eexists. split; [reflexivity|].
  destruct (1 <? _); cbn [self told set_self sent wire host];
    (split; [reflexivity|]); (split; [reflexivity|]); (split; [reflexivity|]).
  - rewrite <- !app_assoc, skipn_app, skipn_all, Nat.sub_diag. cbn.
    intuition discriminate.
  - rewrite <- !app_assoc, skipn_app, skipn_all, Nat.sub_diag. cbn.
    intuition discriminate.
Qed.

End Further.

Section Startup.

Context {Dev : Type} {comm : Communicator Dev}.
Implicit Types (w : World Dev) (l : Dev).

(** Property X10.  [getStartupParameters] always makes both reads, the
    limits read also after a failed position read; it answers [true]
    exactly when both queries succeeded, publishes the position only
    after a successful position read and the two limits only after a
    successful limits read. *)
Theorem getStartupParameters_reads_both w l1 r1 l2 r2 :
  sendCommand (link w) FOCUSER MC_GET_POSITION = (l1, r1) ->
  sendCommand l1 FOCUSER FOC_GET_HS_POSITIONS = (l2, r2) ->
  sized 3 r1 = true ->
  sized 8 r2 = true ->
  exists w' evs,
    getStartupParameters w = Some (is_some r1 && is_some r2, w')
    /\ link w' = l2
    /\ wire w' = wire w ++ [Query FOCUSER MC_GET_POSITION;
                            Query FOCUSER FOC_GET_HS_POSITIONS]
    /\ host w' = host w ++ evs
    /\ (In (IDSetNumber FOCUS_ABS_POS) evs <-> is_some r1 = true)
    /\ (In (IDSetNumber FOCUS_MAX) evs <-> is_some r2 = true)
    /\ (In (IDSetNumber FOCUS_MIN) evs <-> is_some r2 = true).
Proof.
  intros E1 E2 S1 S2. unfold getStartupParameters. cbv [bind].
  destruct r1 as [reply1|].
  - destruct reply1 as [|b0 [|b1 [|b2 rest1]]]; try discriminate S1.
    rewrite (readPosition_ok w l1 b0 b1 b2 rest1 E1). cbv [emit].
    destruct r2 as [reply2|].
    + do 8 (destruct reply2 as [|? reply2]; [discriminate S2|]).
      match goal with
      | |- context [readLimits ?W] =>
          rewrite (readLimits_ok W l2 _ _ _ _ _ _ _ _ reply2 E2)
      end.
      cbv zeta. cbv [ret told sent set_self]. cbn [link wire host self].
      eexists. eexists. split; [reflexivity|]. cbn [link wire host].
      split; [reflexivity|].
      split; [rewrite <- app_assoc; reflexivity|].
      split; [rewrite <- !app_assoc; reflexivity|].
      cbn. repeat split; intros; auto 10.
    + match goal with
      | |- context [readLimits ?W] => rewrite (readLimits_fail W l2 E2)
      end.
      cbv [ret told sent set_self]. cbn [link wire host self].
      eexists. eexists. split; [reflexivity|]. cbn [link wire host].
      split; [reflexivity|].
      split; [rewrite <- app_assoc; reflexivity|].
      split; [rewrite <- !app_assoc; reflexivity|].
      cbn. repeat split; intros; auto;
        try discriminate; intuition discriminate.
  - rewrite (readPosition_fail w l1 E1). cbv [ret].
    destruct r2 as [reply2|].
    + do 8 (destruct reply2 as [|? reply2]; [discriminate S2|]).
      match goal with
      | |- context [readLimits ?W] =>
          rewrite (readLimits_ok W l2 _ _ _ _ _ _ _ _ reply2 E2)
      end.
      cbv zeta. cbv [emit told sent set_self]. cbn [link wire host self].
      eexists. eexists. split; [reflexivity|]. cbn [link wire host].
      split; [reflexivity|].
      split; [rewrite <- app_assoc; reflexivity|].
      split; [rewrite <- !app_assoc; reflexivity|].
      cbn. repeat split; intros; auto 10;
        try discriminate; intuition discriminate.
    + match goal with
      | |- context [readLimits ?W] => rewrite (readLimits_fail W l2 E2)
      end.
      cbv [told sent set_self]. cbn [link wire host self].
      exists (sent (sent w l1 (Query FOCUSER MC_GET_POSITION)) l2
                (Query FOCUSER FOC_GET_HS_POSITIONS)), [].
      split; [reflexivity|]. cbn [link wire host sent].
      split; [reflexivity|].
      split; [rewrite <- app_assoc; reflexivity|].
      split; [rewrite app_nil_r; reflexivity|].
      cbn. repeat split; intros; auto; try discriminate; contradiction.
Qed.

(** Property X11.  The handshake is a pure probe: it sends the one
    firmware-version query and nothing else, leaves the driver object
    as it was, and answers [true] exactly when that query succeeded. *)
Theorem Handshake_is_a_probe w ok w' :
  Handshake w = Some (ok, w') ->
  wire w' = wire w ++ [Query FOCUSER GET_VER]
  /\ self w' = self w
  /\ link w' = fst (sendCommand (link w) FOCUSER GET_VER)
  /\ ok = is_some (snd (sendCommand (link w) FOCUSER GET_VER)).
Proof.
  intros E.
  destruct (Handshake_cases w ok w' E) as (w1 & e & EA & ->).
  destruct (Ack_frame w ok w1 EA) as (Hw & Hs & _).
  cbn [wire self link told].
  split; [exact Hw|]. split; [exact Hs|].
  destruct (sendCommand (link w) FOCUSER GET_VER) as [l [reply|]] eqn:Eq.
  - destruct reply as [|b0 [|b1 rest]].
    + unfold Ack in EA. revert EA. run_with Eq. discriminate.
    + unfold Ack in EA. revert EA. run_with Eq. discriminate.
    + destruct rest as [|b2 [|b3 [|b4 rest]]].
      * rewrite (Ack_version2 w l b0 b1 [] Eq) in EA by (cbn; congruence).
        injection EA as <- <-. split; reflexivity.
      * rewrite (Ack_version2 w l b0 b1 [b2] Eq) in EA by (cbn; congruence).
        injection EA as <- <-. split; reflexivity.
      * rewrite (Ack_version4 w l b0 b1 b2 b3 Eq) in EA.
        injection EA as <- <-. split; reflexivity.
      * rewrite (Ack_version2 w l b0 b1 (b2 :: b3 :: b4 :: rest) Eq) in EA
          by (cbn; congruence).
        injection EA as <- <-. split; reflexivity.
  - rewrite (Ack_fail w l Eq) in EA. injection EA as <- <-.
    split; reflexivity.
Qed.

(** Property X12.  The driver never moves the focuser on its own: over
    any sequence of calls, the goto commands that appear on the wire
    are one per move request made, whatever the reads, poll ticks,
    handshakes and aborts in between. *)
Theorem session_sends_one_goto_per_move (cs : list Call) w u w' :
  session cs w = Some (u, w') ->
  List.length (goto_targets (wire w'))
  = (List.length (goto_targets (wire w)) + List.length (filter is_move cs))%nat.
Proof.
  revert w. induction cs as [|c cs IH]; intros w.
  - cbn. cbv [ret]. intros [= <- <-]. lia.
  - cbn [session]. cbv [bind].
    destruct (exec c w) as [[v w1]|] eqn:E; [|discriminate].
    intros Es. rewrite (IH w1 Es).
    destruct (exec_wire c w v w1 E) as (rs & Hw & Hn).
    rewrite Hw, goto_targets_app, length_app, Hn.
    cbn [filter]. destruct (is_move c); cbn [List.length]; lia.
Qed.

End Startup.

(** ** The further properties at concrete inputs *)

Lemma fresh_in_step : in_step fresh.
Proof. unfold in_step. cbn. repeat split; lia. Qed.

Lemma at_55000_in_step : in_step at_55000.
Proof. unfold in_step. cbn. repeat split; lia. Qed.

Lemma session_keeps_numbers_in_step_witness :
  exists w',
    session short_session short_session_world = Some (tt, w')
    /\ in_step (self w').
Proof.
  assert (E : exists w', session short_session short_session_world
                         = Some (tt, w'))
    by (eexists; lazy; reflexivity).
  destruct E as (w' & E). exists w'. split; [exact E|].
  destruct (session_keeps_numbers_in_step (comm := Scripted_Communicator))
    as [Hinit Hkeep].
  apply (Hkeep short_session short_session_world tt w'); [|exact E].
  unfold in_step. cbn. repeat split; lia.
Defined.


(** From 600 with limits 500 and 55000, 1000 ticks inward go to 0,
    below the lower limit. *)
Lemma MoveRelFocuser_target_within_limit_witness :
  min (FocusAbsPosN (calibrated 500 55000 600)) = 500
  /\ exists st w',
       MoveRelFocuser FOCUS_INWARD 1000
         (world (answering []) (calibrated 500 55000 600)) = Some (st, w')
       /\ goto_targets (wire w') = [0].
Proof.
  split; [reflexivity|].
  assert (Hhi : 0 <= 55000 < 2 ^ 24) by lia.
  destruct (MoveRelFocuser_target_within_limit
              (comm := Scripted_Communicator)
              (world (answering []) (calibrated 500 55000 600))
              FOCUS_INWARD 1000 eq_refl Hhi)
    as (st & w' & t & E & Hg & _ & _ & Hlow & _).
  exists st, w'. split; [exact E|].
  rewrite Hg, (Hlow ltac:(cbn; lia)). reflexivity.
Defined.

Lemma goto_payload_read_back_witness :
  exists w',
    readPosition (world (answering [Some [x00; xd2; xf0]]) at_55000)
    = Some (true, w')
    /\ value (FocusAbsPosN (self w')) = 54000.
Proof.
  assert (Ht : 0 <= 54000 < 2 ^ 24) by lia.
  exact (goto_payload_read_back (comm := Scripted_Communicator)
           (world (answering [Some [x00; xd2; xf0]]) at_55000)
           (answering []) 54000 [] Ht eq_refl).
Defined.

Lemma TimerHit_rearms_once_witness :
  exists w' evs,
    TimerHit steady_world = Some (tt, w')
    /\ host w' = host steady_world ++ evs ++ [SetTimer]
    /\ ~ In SetTimer evs
    /\ isConnected (self w') = isConnected (self steady_world).
Proof.
  exact (TimerHit_rearms_once (comm := Steady_Communicator) steady_world
           Steady_well_sized).
Defined.

(** A reading one tick away from the cached 30000 is not published, a
    reading two ticks away is. *)
Lemma TimerHit_publishes_only_real_changes_witness :
  (exists w',
      TimerHit (world (answering [Some [x00; x75; x31]]) at_30000)
      = Some (tt, w')
      /\ host w' = [LOG_DEBUG "readPosition %i" [30001]; SetTimer])
  /\ (exists w',
         TimerHit (world (answering [Some [x00; x75; x32]]) at_30000)
         = Some (tt, w')
         /\ host w' = [LOG_DEBUG "readPosition %i" [30002];
                       IDSetNumber FOCUS_ABS_POS; SetTimer]).
Proof.
  split.
  - destruct (TimerHit_publishes_only_real_changes
                (comm := Scripted_Communicator)
                (world (answering [Some [x00; x75; x31]]) at_30000)
                (answering []) x00 x75 x31 [] eq_refl eq_refl eq_refl)
      as (w' & E & _ & Hh).
    exists w'. split; [exact E|]. lazy in Hh. exact Hh.
  - destruct (TimerHit_publishes_only_real_changes
                (comm := Scripted_Communicator)
                (world (answering [Some [x00; x75; x32]]) at_30000)
                (answering []) x00 x75 x32 [] eq_refl eq_refl eq_refl)
      as (w' & E & _ & Hh).
    exists w'. split; [exact E|]. lazy in Hh. exact Hh.
Defined.

Lemma TimerHit_position_read_ends_absolute_move_witness :
  s (FocusAbsPosNP abs_move_pending) = IPS_BUSY
  /\ exists w',
       TimerHit (world (answering [Some [x00; x75; x30]]) abs_move_pending)
       = Some (tt, w')
       /\ s (FocusAbsPosNP (self w')) = IPS_OK
       /\ wire w' = [Query FOCUSER MC_GET_POSITION].
Proof.
  split; [reflexivity|].
  destruct (TimerHit_position_read_ends_absolute_move
              (comm := Scripted_Communicator)
              (world (answering [Some [x00; x75; x30]]) abs_move_pending)
              (answering []) x00 x75 x30 [] eq_refl eq_refl eq_refl)
    as (w' & E & Hs & _ & Hw & _).
  exists w'. split; [exact E|]. split; [exact Hs | exact Hw].
Defined.

Lemma TimerHit_status_byte_witness :
  (exists w',
      TimerHit (world (answering [Some [x00; x75; x30]; Some [x01]])
                      rel_move_pending) = Some (tt, w')
      /\ s (FocusRelPosNP (self w')) = IPS_BUSY)
  /\ (exists w',
         TimerHit (world (answering [Some [x00; x75; x30]; Some [xff]])
                         rel_move_pending) = Some (tt, w')
         /\ s (FocusRelPosNP (self w')) = IPS_OK).
Proof.
  split.
  - destruct (TimerHit_status_byte (comm := Scripted_Communicator)
                (world (answering [Some [x00; x75; x30]; Some [x01]])
                       rel_move_pending)
                true
                (set_self (position_stored 30000)
                   (told (sent (world (answering [Some [x00; x75; x30];
                                                  Some [x01]])
                                      rel_move_pending)
                               (answering [Some [x01]])
                               (Query FOCUSER MC_GET_POSITION))
                         (LOG_DEBUG "readPosition %i" [30000])))
                (answering []) x01 [] eq_refl eq_refl eq_refl eq_refl)
      as (w' & E & Hs).
    exists w'. split; [exact E|].
    exact (f_equal (fun d => s (FocusRelPosNP d)) Hs).
  - destruct (TimerHit_status_byte (comm := Scripted_Communicator)
                (world (answering [Some [x00; x75; x30]; Some [xff]])
                       rel_move_pending)
                true
                (set_self (position_stored 30000)
                   (told (sent (world (answering [Some [x00; x75; x30];
                                                  Some [xff]])
                                      rel_move_pending)
                               (answering [Some [xff]])
                               (Query FOCUSER MC_GET_POSITION))
                         (LOG_DEBUG "readPosition %i" [30000])))
                (answering []) xff [] eq_refl eq_refl eq_refl eq_refl)
      as (w' & E & Hs).
    exists w'. split; [exact E|].
    exact (proj1 (proj2 Hs)).
Defined.

Lemma getStartupParameters_reads_both_witness :
  exists w',
    getStartupParameters
      (world (answering [None; Some [x00; x00; x01; xf4; x00; x00; xd6; xd8]])
             fresh) = Some (false, w')
    /\ wire w' = [Query FOCUSER MC_GET_POSITION;
                  Query FOCUSER FOC_GET_HS_POSITIONS].
Proof.
  destruct (getStartupParameters_reads_both (comm := Scripted_Communicator)
              (world (answering
                        [None; Some [x00; x00; x01; xf4; x00; x00; xd6; xd8]])
                     fresh)
              (answering [Some [x00; x00; x01; xf4; x00; x00; xd6; xd8]]) None
              (answering [])
              (Some [x00; x00; x01; xf4; x00; x00; xd6; xd8])
              eq_refl eq_refl eq_refl eq_refl)
    as (w' & evs & E & _ & Hw & _).
  exists w'. split; [exact E | exact Hw].
Defined.

Lemma Handshake_is_a_probe_witness :
  exists w',
    Handshake (world (answering [Some [x07; x0f]]) fresh) = Some (true, w')
    /\ wire w' = [Query FOCUSER GET_VER]
    /\ self w' = fresh.
Proof.
  assert (E : exists w', Handshake (world (answering [Some [x07; x0f]]) fresh)
                         = Some (true, w'))
    by (eexists; lazy; reflexivity).
  destruct E as (w' & E). exists w'. split; [exact E|].
  destruct (Handshake_is_a_probe (comm := Scripted_Communicator)
              (world (answering [Some [x07; x0f]]) fresh) true w' E)
    as (Hw & Hs & _).
  split; [exact Hw | exact Hs].
Defined.

Lemma session_sends_one_goto_per_move_witness :
  exists w',
    session short_session short_session_world = Some (tt, w')
    /\ List.length (goto_targets (wire w')) = 1%nat.
Proof.
  assert (E : exists w', session short_session short_session_world
                         = Some (tt, w'))
    by (eexists; lazy; reflexivity).
  destruct E as (w' & E). exists w'. split; [exact E|].
  exact (session_sends_one_goto_per_move (comm := Scripted_Communicator)
           short_session short_session_world tt w' E).
Defined.

(** The wire of the short session, in full. *)
Example short_session_wire :
  exists w',
    session short_session short_session_world = Some (tt, w')
    /\ wire w' = [Query FOCUSER MC_GET_POSITION;
                  Query FOCUSER FOC_GET_HS_POSITIONS;
                  Blind FOCUSER MC_GOTO_FAST [x00; x71; x48];
                  Query FOCUSER MC_GET_POSITION;
                  Blind FOCUSER MC_MOVE_POS [x00]].
Proof. eexists. split; lazy; reflexivity. Qed.

Section Connection.

Context {Dev : Type} {comm : Communicator Dev}.
Implicit Types (w : World Dev) (l : Dev).

(** Property X13.  A poll tick talks to the device exactly when the
    driver is connected: disconnected, it leaves the wire, the link and
    the driver object as they were and only re-arms the timer;
    connected, it puts the position query on the wire first. *)
Theorem TimerHit_polls_only_when_connected w u w' :
  TimerHit w = Some (u, w') ->
  (isConnected (self w) = false ->
   wire w' = wire w /\ link w' = link w /\ self w' = self w
   /\ host w' = host w ++ [SetTimer])
  /\ (isConnected (self w) = true ->
      exists qs, wire w' = wire w ++ Query FOCUSER MC_GET_POSITION :: qs).
Proof.
  intros E. split; intros Hc.
  - rewrite (TimerHit_disconnected w Hc) in E. injection E as <- <-.
    cbn. auto.
  - destruct (readPosition w) as [[rc w1]|] eqn:Hr.
    2: { rewrite (TimerHit_position_undefined w Hc Hr) in E. discriminate. }
    destruct (readPosition_frame w rc w1 Hr) as (Hw1 & _).
    rewrite (TimerHit_connected w rc w1 Hc Hr) in E. cbv zeta in E.
    revert E.
    match goal with
    | |- context [if ?c then told w1 ?e else w1] =>
        set (w2 := if c then told w1 e else w1)
    end.
    assert (Hw2 : wire w2 = wire w1)
      by (subst w2; destruct (_ && _); reflexivity).
    destruct (poll_busy (self w2)).
    + destruct (isMoving w2) as [[moving w3]|] eqn:Hm; [|discriminate].
      destruct (isMoving_frame w2 moving w3 Hm) as (Hw3 & _ & _).
      intros [= <- <-]. exists [Query FOCUSER MC_SLEW_DONE].
      destruct moving; cbv [negb reached told set_self wire];
        fold (wire w3); rewrite Hw3, Hw2, Hw1, <- app_assoc; reflexivity.
    + intros [= <- <-]. exists []. cbn. rewrite Hw2, Hw1. reflexivity.
Qed.

End Connection.

Lemma TimerHit_polls_only_when_connected_witness :
  exists w',
    TimerHit (world (answering [Some [x00; x75; x30]])
                    (upd_FocusAbsPosNP (with_s IPS_BUSY)
                       {| isConnected := false;
                          FocusAbsPosNP := FocusAbsPosNP at_30000;
                          FocusRelPosNP := FocusRelPosNP at_30000;
                          FocusMaxPosNP := FocusMaxPosNP at_30000;
                          FocusMinPosNP := FocusMinPosNP at_30000;
                          BacklashNP := BacklashNP at_30000 |}))
    = Some (tt, w')
    /\ wire w' = []
    /\ host w' = [SetTimer]
    /\ s (FocusAbsPosNP (self w')) = IPS_BUSY.
Proof.
  assert (E : exists w',
             TimerHit (world (answering [Some [x00; x75; x30]])
                    (upd_FocusAbsPosNP (with_s IPS_BUSY)
                       {| isConnected := false;
                          FocusAbsPosNP := FocusAbsPosNP at_30000;
                          FocusRelPosNP := FocusRelPosNP at_30000;
                          FocusMaxPosNP := FocusMaxPosNP at_30000;
                          FocusMinPosNP := FocusMinPosNP at_30000;
                          BacklashNP := BacklashNP at_30000 |}))
             = Some (tt, w'))
    by (eexists; lazy; reflexivity).
  destruct E as (w' & E). exists w'. split; [exact E|].
  destruct (proj1 (TimerHit_polls_only_when_connected
                     (comm := Scripted_Communicator) _ tt w' E) eq_refl)
    as (Hw & _ & Hs & Hh).
  split; [exact Hw|]. split; [exact Hh|]. rewrite Hs. reflexivity.
Defined.
